(** * Lender Service Provider: valuation engine and loan-request lifecycle

    A shallow embedding of [src/main.py] and [src/schemas.py]:
    - [Float]: Python's [float] (IEEE 754 binary64) as the exact rational
      value of each number, every operation followed by round-to-nearest-even;
    - [estimate_value]: the valuation function;
    - documents of the [loanrequest] collection as finite maps from field
      names to values, and the endpoints [create_loan_request],
      [create_byob] and [update_status] as functions on the collection. *)

From Stdlib Require Import ZArith QArith Qround Qabs Qpower Lqa Lia.
From Stdlib Require Import PrimFloat SpecFloat FloatOps.
From Stdlib Require Import String Ascii.
From stdpp Require Import gmap strings list fin_maps.

Local Open Scope Z_scope.

(* ===================================================================== *)
(** * Python floats *)
(* ===================================================================== *)

(** A finite binary64 number is represented by its exact value in [Q].
    An arithmetic operation is the exact operation followed by [fl], rounding
    to the nearest representable number, ties to the even significand
    (53 bits of precision, gradual underflow below [2^-1022]).  Overflow to
    infinity is not represented: every intermediate value of the valuation is
    bounded by [600000 * 1.05]. *)
Module Float.

Local Open Scope Q_scope.

(** [Qlog2 q] is the exponent [z] of the binade of a positive [q]:
    [2^z <= q < 2^(z+1)]. *)
Definition Qlog2 (q : Q) : Z :=
  let z0 := (Z.log2 (Qnum q) - Z.log2 (Zpos (Qden q)))%Z in
  if Qle_bool (2 ^ z0) q then z0 else (z0 - 1)%Z.

(** Round half to even, to an integer. *)
Definition rhe (q : Q) : Z :=
  let d := Zpos (Qden q) in
  let f := (Qnum q / d)%Z in
  let r := (Qnum q mod d)%Z in
  match (2 * r ?= d)%Z with
  | Lt => f
  | Gt => (f + 1)%Z
  | Eq => if Z.even f then f else (f + 1)%Z
  end.

(** Exponent of the unit in the last place of the binade of [q]. *)
Definition ulp_exp (q : Q) : Z := Z.max (Qlog2 (Qabs q) - 52) (-1074).

(** Rounding of an exact result to binary64. *)
Definition fl (q : Q) : Q :=
  let e := ulp_exp q in
  Qred (inject_Z (rhe (q / 2 ^ e)) * 2 ^ e).

(** A decimal literal of the source denotes the nearest binary64 number. *)
Definition lit (q : Q) : Q := fl q.

(** [int] operands are converted exactly (all integers of the program are
    below [2^53]). *)
Definition of_int (n : Z) : Q := inject_Z n.

Definition mul (x y : Q) : Q := fl (x * y).

(** [x ** n] for a float [x] and a non-negative [int] [n] is the [pow] of
    the C library.  Its result is close to the exact power but is not fixed
    bit for bit (on an exact tie such as [0.75 ** 34] common libraries do not
    return the correctly rounded number), so it is a parameter of the model.
    [pow_rounded], the correctly rounded power, is the instance with which
    the samples are evaluated.  The conversion of the exponent to a float,
    which CPython refuses for integers from [2^1024] on, is not
    represented. *)
Class Libm := pow : Q -> Z -> Q.

#[global] Instance pow_rounded : Libm := fun x n => fl (x ^ n).

(** The builtin [max(a, b)]: [b] only when it is strictly greater. *)
Definition max (a b : Q) : Q := if Qlt_le_dec a b then b else a.

(** The builtin [round(x, 0)]: the nearest integer, ties to even, as a
    float. *)
Definition round (x : Q) : Q := inject_Z (rhe x).

(** The exact value of a machine float, used to compare [fl] with the
    primitive binary64 operations on the numbers of the program. *)
Definition of_prim (x : float) : option Q :=
  match Prim2SF x with
  | S754_zero _ => Some 0
  | S754_finite s m e =>
      Some (Qred ((if s then -1 else 1) * inject_Z (Zpos m) * 2 ^ e))
  | S754_infinity _ | S754_nan => None
  end.

End Float.

(* ===================================================================== *)
(** * Schemas ([schemas.py]) *)
(* ===================================================================== *)

Inductive Category := vehicle | electronics.
Inductive Condition := excellent | good | fair | poor.
Inductive MediaKind := photo | video.

Record Borrower := { b_name : string; b_mobile : string; b_city : string }.

Record Lender := {
  l_name : string;
  l_mobile : option string;
  l_company : option string
}.

Record MediaItem := {
  kind : MediaKind;
  url : string;
  filename : string;
  content_type : option string;
  size_bytes : option Z
}.

Record LoanAsset := {
  category : Category;
  subtype : string;
  make : option string;
  model : option string;
  year : option Z;
  condition : option Condition;
  notes : option string
}.

Record LoanEstimation := {
  estimated_value : Q;
  suggested_loan : Q;
  ltv : Q
}.

(* ===================================================================== *)
(** * Valuation ([estimate_value]) *)
(* ===================================================================== *)

(** [str.lower()].  Strings are byte strings here; the letters [A]-[Z] are
    mapped to [a]-[z] and every other byte is kept. *)
Definition lower_ascii (c : ascii) : ascii :=
  let n := nat_of_ascii c in
  if ((65 <=? n)%nat && (n <=? 90)%nat)%bool then ascii_of_nat (n + 32) else c.

Fixpoint lower (s : string) : string :=
  match s with
  | EmptyString => EmptyString
  | String c s' => String (lower_ascii c) (lower s')
  end.

(** [x or d] for an [Optional[int]]: [None] and [0] are both falsy. *)
Definition or_int (x : option Z) (d : Z) : Z :=
  match x with
  | Some y => if (y =? 0)%Z then d else y
  | None => d
  end.

Definition base_map (c : Category) : gmap string Z :=
  match c with
  | vehicle =>
      {[ "2-wheeler" := 80000; "3-wheeler" := 200000; "4-wheeler" := 600000 ]}
  | electronics =>
      {[ "laptop" := 60000; "mobile" := 40000; "other" := 20000 ]}
  end.

Definition vehicle_keys : gset string :=
  {[ "2-wheeler"; "3-wheeler"; "4-wheeler" ]}.
Definition electronics_keys : gset string :=
  {[ "laptop"; "mobile"; "other" ]}.

(** The subtype key after normalisation (lines 93-100). *)
Definition normalize_subtype (c : Category) (s : string) : string :=
  let subtype_key := lower s in
  match c with
  | vehicle =>
      if bool_decide (subtype_key ∈ vehicle_keys) then subtype_key
      else "2-wheeler"
  | electronics =>
      if bool_decide (subtype_key ∈ electronics_keys) then subtype_key
      else "other"
  end.

(** [age] (lines 104-109).  [now_year] is [datetime.datetime.now().year].
    [year] is an [int], so [int(year)] is the identity and the [except]
    branch ([age = 4]) is never taken. *)
Definition asset_age (now_year : Z) (asset : LoanAsset) : Z :=
  let year := or_int (year asset) 2020 in
  Z.max 0 (now_year - year).

(** The [condition_factor] table with its [.get(..., 1.0)] lookup. *)
Definition condition_factor (c : option Condition) : Q :=
  match c with
  | Some excellent => Float.lit (105 # 100)
  | Some good => 1
  | Some fair => Float.lit (85 # 100)
  | Some poor => Float.lit (7 # 10)
  | None => 1
  end.

(** The depreciated value before the condition factor (lines 112-117). *)
Definition depreciated {libm : Float.Libm} (c : Category) (base age : Z) : Q :=
  match c with
  | vehicle =>
      Float.mul (Float.mul (Float.of_int base) (Float.lit (85 # 100)))
                (Float.pow (Float.lit (9 # 10)) (Z.max 0 (age - 1)))
  | electronics =>
      Float.mul (Float.mul (Float.of_int base) (Float.lit (7 # 10)))
                (Float.pow (Float.lit (75 # 100)) (Z.max 0 age))
  end.

Definition ltv_policy (c : Category) : Q :=
  match c with
  | vehicle => Float.lit (6 # 10)
  | electronics => Float.lit (5 # 10)
  end.

(** [estimated], the floored value before rounding (line 126). *)
Definition estimated_of {libm : Float.Libm} (now_year : Z) (asset : LoanAsset) : Q :=
  let subtype_key := normalize_subtype (category asset) (subtype asset) in
  let base := base_map (category asset) !!! subtype_key in
  let age := asset_age now_year asset in
  let value := depreciated (category asset) base age in
  Float.max 5000 (Float.mul value (condition_factor (condition asset))).

Definition estimate_value {libm : Float.Libm} (now_year : Z) (asset : LoanAsset)
    : LoanEstimation :=
  let estimated := estimated_of now_year asset in
  let ltv := ltv_policy (category asset) in
  let suggested := Float.round (Float.mul estimated ltv) in
  {| estimated_value := Float.round estimated;
     suggested_loan := suggested;
     ltv := ltv |}.

(* ===================================================================== *)
(** * Documents and the [loanrequest] collection *)
(* ===================================================================== *)

#[local] Set Warnings "-register-all".

(** Values stored in a document.  A [datetime] is kept as its ISO text, an
    [ObjectId] as its hexadecimal text. *)
Inductive Value :=
| VNull
| VStr (s : string)
| VInt (n : Z)
| VFloat (x : Q)
| VDate (iso : string)
| VOid (hex : string)
| VList (l : list Value)
| VDoc (fields : list (string * Value)).

(** A top-level document, and the collection: documents by identifier. *)
Abbreviation Doc := (gmap string Value).
Abbreviation Store := (gmap string (gmap string Value)).

Definition of_opt {A} (f : A → Value) (x : option A) : Value :=
  match x with Some a => f a | None => VNull end.

Definition Category_str (c : Category) : string :=
  match c with vehicle => "vehicle" | electronics => "electronics" end.
Definition Condition_str (c : Condition) : string :=
  match c with
  | excellent => "excellent" | good => "good" | fair => "fair" | poor => "poor"
  end.
Definition MediaKind_str (k : MediaKind) : string :=
  match k with photo => "photo" | video => "video" end.

Inductive Status := Pending | Approved | Rejected | Modified.
Definition Status_str (s : Status) : string :=
  match s with
  | Pending => "Pending" | Approved => "Approved"
  | Rejected => "Rejected" | Modified => "Modified"
  end.

Inductive Source := platform | byob.
Definition Source_str (s : Source) : string :=
  match s with platform => "platform" | byob => "byob" end.

Record LoanRequest := {
  borrower : Borrower;
  asset : LoanAsset;
  estimation : LoanEstimation;
  status : Status;
  offer_amount : option Q;
  lender_note : option string;
  media : list MediaItem;
  source : Source;
  lender_id : option string
}.

(** [model_dump()] of each schema. *)
Definition dump_Borrower (b : Borrower) : Value :=
  VDoc [("name", VStr (b_name b)); ("mobile", VStr (b_mobile b));
        ("city", VStr (b_city b))].

Definition dump_MediaItem (m : MediaItem) : Value :=
  VDoc [("kind", VStr (MediaKind_str (kind m))); ("url", VStr (url m));
        ("filename", VStr (filename m));
        ("content_type", of_opt VStr (content_type m));
        ("size_bytes", of_opt VInt (size_bytes m))].

Definition dump_LoanAsset (a : LoanAsset) : Value :=
  VDoc [("category", VStr (Category_str (category a)));
        ("subtype", VStr (subtype a));
        ("make", of_opt VStr (make a));
        ("model", of_opt VStr (model a));
        ("year", of_opt VInt (year a));
        ("condition", of_opt (λ c, VStr (Condition_str c)) (condition a));
        ("notes", of_opt VStr (notes a))].

Definition dump_LoanEstimation (e : LoanEstimation) : Value :=
  VDoc [("estimated_value", VFloat (estimated_value e));
        ("suggested_loan", VFloat (suggested_loan e));
        ("ltv", VFloat (ltv e))].

Definition dump_LoanRequest (r : LoanRequest) : gmap string Value :=
  {[ "borrower" := dump_Borrower (borrower r);
     "asset" := dump_LoanAsset (asset r);
     "estimation" := dump_LoanEstimation (estimation r);
     "status" := VStr (Status_str (status r));
     "offer_amount" := of_opt VFloat (offer_amount r);
     "lender_note" := of_opt VStr (lender_note r);
     "media" := VList (dump_MediaItem <$> media r);
     "source" := VStr (Source_str (source r));
     "lender_id" := of_opt VStr (lender_id r) ]}.

(** ** The store *)

(** Modelled from the spec: [create_document] of [database.py], which is not
    among the sources; the spec gives it as [Insert(collection, record) ->
    identity].  The identity the store assigns is the parameter [new_id]. *)
Definition create_document (new_id : string) (db : Store)
    (data : gmap string Value) : Store * string :=
  (<[new_id := data]> db, new_id).

(** [find_one({"_id": ObjectId(id)})]: the stored fields with [_id].  The
    identifier is taken to be well formed: the parser of [bson] is not part
    of the repository. *)
Definition find_one (db : Store) (id : string) : option (gmap string Value) :=
  (λ d, <["_id" := VOid id]> d) <$> db !! id.

(** [update_one({"_id": ObjectId(id)}, {"$set": update})]: the fields of
    [update] overwrite those of the stored document. *)
Definition update_one (db : Store) (id : string)
    (update : gmap string Value) : Store :=
  match db !! id with
  | Some d => <[id := update ∪ d]> db
  | None => db
  end.

(** A field counts as set when it is present with a value other than
    null. *)
Definition is_set (k : string) (d : gmap string Value) : bool :=
  match d !! k with
  | Some VNull | None => false
  | Some _ => true
  end.

(** [not doc] for the result of [find_one]: [None] and the empty dictionary
    are falsy. *)
Definition not_doc (doc : option (gmap string Value)) : bool :=
  match doc with
  | None => true
  | Some d => bool_decide (d = ∅)
  end.

(** [serialize_doc]: [_id] becomes the text field [id], dates become ISO
    text; [None] for a missing or empty document. *)
Definition iso_dates (v : Value) : Value :=
  match v with VDate iso => VStr iso | _ => v end.

Definition serialize_doc (doc : option (gmap string Value))
    : option (gmap string Value) :=
  match doc with
  | None => None
  | Some d =>
      if not_doc doc then None
      else
        let d :=
          match d !! "_id" with
          | Some (VOid hex) => <["id" := VStr hex]> (delete "_id" d)
          | _ => d
          end in
        Some (iso_dates <$> d)
  end.

(* ===================================================================== *)
(** * Endpoints ([main.py]) *)
(* ===================================================================== *)

Record CreateLoanInput := {
  cl_borrower : Borrower;
  cl_asset : LoanAsset;
  cl_media : list MediaItem
}.

Record ModifyOfferInput := {
  mo_offer_amount : option Q;
  mo_lender_note : option string
}.

Record StatusUpdateInput := {
  action : string;
  data : option ModifyOfferInput
}.

Record BYOBInput := {
  by_lender : Lender;
  by_borrower : Borrower;
  by_asset : LoanAsset
}.

(** The outcome of an endpoint: a body, or a raised [HTTPException]. *)
Inductive Response (A : Type) :=
| Ok (body : A)
| HTTPException (status_code : Z) (detail : string).
Arguments Ok {A} body.
Arguments HTTPException {A} status_code detail.

Record Created := {
  cr_id : string;
  cr_status : Status;
  cr_estimation : Value
}.

(** Truthiness of an [Optional[str]]: [None] and the empty text are falsy. *)
Definition truthy_str (x : option string) : option string :=
  match x with
  | Some s => if bool_decide (s = "") then None else Some s
  | None => None
  end.

(** [a or b or c] on texts, as in line 253. *)
Definition lender_identity (l : Lender) : string :=
  match truthy_str (l_company l) with
  | Some c => c
  | None =>
      match truthy_str (Some (l_name l)) with
      | Some n => n
      | None => "lender"
      end
  end.

Definition create_loan_request {libm : Float.Libm} (now_year : Z)
    (new_id : string) (db : Store) (payload : CreateLoanInput)
    : Store * Created :=
  let estimation := estimate_value now_year (cl_asset payload) in
  let req :=
    {| borrower := cl_borrower payload;
       asset := cl_asset payload;
       estimation := estimation;
       status := Pending;
       offer_amount := None;
       lender_note := None;
       media := cl_media payload;
       source := platform;
       lender_id := None |} in
  let '(db', inserted_id) := create_document new_id db (dump_LoanRequest req) in
  (db', {| cr_id := inserted_id; cr_status := status req;
           cr_estimation := dump_LoanEstimation estimation |}).

Definition create_byob {libm : Float.Libm} (now_year : Z) (new_id : string)
    (db : Store) (payload : BYOBInput) : Store * Created :=
  let estimation := estimate_value now_year (by_asset payload) in
  let req :=
    {| borrower := by_borrower payload;
       asset := by_asset payload;
       estimation := estimation;
       status := Pending;
       offer_amount := None;
       lender_note := None;
       media := [];
       source := byob;
       lender_id := Some (lender_identity (by_lender payload)) |} in
  let '(db', inserted_id) := create_document new_id db (dump_LoanRequest req) in
  (db', {| cr_id := inserted_id; cr_status := status req;
           cr_estimation := dump_LoanEstimation estimation |}).

(** The [update] dictionary built in lines 214-225, or the exception raised
    while building it. *)
Definition build_update (payload : StatusUpdateInput)
    : Response (gmap string Value) :=
  let update : gmap string Value := ∅ in
  if bool_decide (action payload = "Approve") then
    Ok (<["status" := VStr "Approved"]> update)
  else if bool_decide (action payload = "Reject") then
    Ok (<["status" := VStr "Rejected"]> update)
  else if bool_decide (action payload = "Modify") then
    match data payload with
    | None => HTTPException 400 "offer_amount required for Modify"
    | Some d =>
        match mo_offer_amount d with
        | None => HTTPException 400 "offer_amount required for Modify"
        | Some amount =>
            let update := <["status" := VStr "Modified"]> update in
            let update := <["offer_amount" := VFloat amount]> update in
            match truthy_str (mo_lender_note d) with
            | Some note => Ok (<["lender_note" := VStr note]> update)
            | None => Ok update
            end
        end
    end
  else Ok update.

Definition update_status (db : Store) (req_id : string)
    (payload : StatusUpdateInput)
    : Store * Response (option (gmap string Value)) :=
  let doc := find_one db req_id in
  if not_doc doc then (db, HTTPException 404 "Request not found")
  else
      match build_update payload with
      | HTTPException c m => (db, HTTPException c m)
      | Ok update =>
          if bool_decide (update = ∅) then
            (db, HTTPException 400 "No update provided")
          else
            let db' := update_one db req_id update in
            let updated := find_one db' req_id in
            (db', Ok (serialize_doc updated))
      end.

(** ** Histories of status updates *)

Definition is_Ok {A} (r : Response A) : bool :=
  match r with Ok _ => true | HTTPException _ _ => false end.

(** Whether the payload carries a non-empty lender note. *)
Definition has_note (payload : StatusUpdateInput) : bool :=
  match data payload with
  | Some d => bool_decide (is_Some (truthy_str (mo_lender_note d)))
  | None => false
  end.

(** The state of a history followed for the request [id]: the collection,
    whether the request went through a [Modify] transition (a call of
    [update_status] on [id] with action [Modify] that did not raise), and
    whether one of these transitions carried a non-empty note. *)
Record History := {
  h_db : Store;
  h_modified : bool;
  h_noted : bool
}.

Definition step (id : string) (h : History)
    (op : string * StatusUpdateInput) : History :=
  let '(db', r) := update_status (h_db h) op.1 op.2 in
  let modify :=
    bool_decide (op.1 = id) && is_Ok r
    && bool_decide (action op.2 = "Modify") in
  {| h_db := db';
     h_modified := h_modified h || modify;
     h_noted := h_noted h || (modify && has_note op.2) |}.

Definition run (id : string) (db : Store)
    (ops : list (string * StatusUpdateInput)) : History :=
  foldl (step id) {| h_db := db; h_modified := false; h_noted := false |} ops.

(** The invariant of a history followed for [id]: the request exists, its
    [offer_amount] is set exactly when it went through a [Modify]
    transition, and its [lender_note] exactly when one of them carried a
    non-empty note. *)
Definition tracks (id : string) (h : History) : Prop :=
  ∃ doc, h_db h !! id = Some doc ∧
         is_set "offer_amount" doc = h_modified h ∧
         is_set "lender_note" doc = h_noted h.

(** The invariant as the data model words it: both fields are set exactly
    when the request went through a [Modify] transition. *)
Definition both_set_iff_modified (id : string) (h : History) : Prop :=
  ∃ doc, h_db h !! id = Some doc ∧
         (is_set "offer_amount" doc = true ∧ is_set "lender_note" doc = true
          ↔ h_modified h = true).

(** The two creation paths. *)
Inductive Creation :=
| Platform (payload : CreateLoanInput)
| BYOB (payload : BYOBInput).

Definition create {libm : Float.Libm} (now_year : Z) (new_id : string)
    (db : Store) (c : Creation) : Store :=
  match c with
  | Platform payload => (create_loan_request now_year new_id db payload).1
  | BYOB payload => (create_byob now_year new_id db payload).1
  end.

(** A stored field of a request, and its stored status. *)
Definition field_of (db : Store) (id k : string) : option Value :=
  db !! id ≫= (λ d, d !! k).

Definition status_of (db : Store) (id : string) : option Value :=
  field_of db id "status".

(** The offer amount carried by a payload, if any: [None] when [data] is
    absent or its [offer_amount] is null. *)
Definition offer_of (payload : StatusUpdateInput) : option Q :=
  data payload ≫= mo_offer_amount.

(** ** Sample inputs *)

Definition mk_asset (c : Category) (s : string) (y : option Z)
    (cond : option Condition) : LoanAsset :=
  {| category := c; subtype := s; make := None; model := None;
     year := y; condition := cond; notes := None |}.

(** The asset with its [year] field replaced. *)
Definition with_year (a : LoanAsset) (y : option Z) : LoanAsset :=
  {| category := category a; subtype := subtype a; make := make a;
     model := model a; year := y; condition := condition a;
     notes := notes a |}.

(** Agreement of two amounts to the nearest whole unit. *)
Definition approx (x y : Q) : Prop := (Qabs (x - y) <= 1)%Q.

(** An electronics asset of subtype "tablet", no year, default condition. *)
Definition tablet : LoanAsset := mk_asset electronics "tablet" None (Some good).

(** A four-wheeler of 2014 in good condition. *)
Definition car_2014 : LoanAsset :=
  mk_asset vehicle "4-wheeler" (Some 2014) (Some good).

Definition sample_borrower : Borrower :=
  {| b_name := "Asha"; b_mobile := "9000000000"; b_city := "Pune" |}.

Definition sample_create : CreateLoanInput :=
  {| cl_borrower := sample_borrower;
     cl_asset := mk_asset electronics "tablet" None (Some good);
     cl_media := [] |}.

Definition sample_byob (name : string) (company : option string) : BYOBInput :=
  {| by_lender := {| l_name := name; l_mobile := None; l_company := company |};
     by_borrower := sample_borrower;
     by_asset := mk_asset vehicle "4-Wheeler" (Some 2016) (Some good) |}.

Definition approve : StatusUpdateInput :=
  {| action := "Approve"; data := None |}.
Definition reject : StatusUpdateInput :=
  {| action := "Reject"; data := None |}.
Definition modify (amount : Q) (note : option string) : StatusUpdateInput :=
  {| action := "Modify";
     data := Some {| mo_offer_amount := Some amount; mo_lender_note := note |} |}.

(** The collection after one platform creation under the id [r1], and the
    document it holds. *)
Definition sample_db : Store :=
  (create_loan_request 2024 "r1" ∅ sample_create).1.

Definition sample_doc : gmap string Value :=
  dump_LoanRequest
    {| borrower := sample_borrower;
       asset := cl_asset sample_create;
       estimation := estimate_value 2024 (cl_asset sample_create);
       status := Pending;
       offer_amount := None;
       lender_note := None;
       media := [];
       source := platform;
       lender_id := None |}.

(** ** Further operations *)

(** The asset with its [subtype] or its [condition] replaced. *)
Definition with_subtype (a : LoanAsset) (s : string) : LoanAsset :=
  {| category := category a; subtype := s; make := make a;
     model := model a; year := year a; condition := condition a;
     notes := notes a |}.

Definition with_condition (a : LoanAsset) (c : option Condition) : LoanAsset :=
  {| category := category a; subtype := subtype a; make := make a;
     model := model a; year := year a; condition := c;
     notes := notes a |}.

(** [get_loan_request] (lines 199-204). *)
Definition get_loan_request (db : Store) (req_id : string)
    : Response (option (gmap string Value)) :=
  let doc := find_one db req_id in
  if not_doc doc then HTTPException 404 "Request not found"
  else Ok (serialize_doc doc).

(** The patch a payload ends up writing: the [update] dictionary when
    [update_status] reaches [update_one], nothing when it raises. *)
Definition patch_of (payload : StatusUpdateInput) : gmap string Value :=
  match build_update payload with
  | Ok update => update
  | HTTPException _ _ => ∅
  end.

(** The patches of the updates addressed to [id], merged in order, the
    later ones taking precedence. *)
Definition merged (id : string)
    (ops : list (string * StatusUpdateInput)) : gmap string Value :=
  foldl (λ acc op, if bool_decide (op.1 = id) then patch_of op.2 ∪ acc else acc)
        ∅ ops.

(** The order of conditions, from the worst to the best. *)
Definition condition_rank (c : option Condition) : Z :=
  match c with
  | Some poor => 0
  | Some fair => 1
  | Some good | None => 2
  | Some excellent => 3
  end.

(** Whether a payload reaches [update_one]: its dictionary is built without
    raising and is not empty. *)
Definition goes_through (payload : StatusUpdateInput) : bool :=
  match build_update payload with
  | Ok update => negb (bool_decide (update = ∅))
  | HTTPException _ _ => false
  end.

(** What the valuation needs of the C library's [pow] on bases between 0
    and 1 and non-negative exponents: being between 0 and 1, and not
    increasing with the exponent. *)
Definition pow_bounded (libm : Float.Libm) : Prop :=
  ∀ x n, (0 <= x <= 1)%Q → (0 <= n)%Z → (0 <= Float.pow x n <= 1)%Q.

Definition pow_antitone (libm : Float.Libm) : Prop :=
  ∀ x n m, (0 <= x <= 1)%Q → (0 <= n <= m)%Z →
    (Float.pow x m <= Float.pow x n)%Q.

(** A margin above the relative error of one rounding ([2^-40]). *)
Definition eps : Q := 1 # 1099511627776.

(** A four-wheeler in a given condition, made in a given year. *)
Definition car (y : Z) (c : option Condition) : LoanAsset :=
  mk_asset vehicle "4-wheeler" (Some y) c.

(* ===================================================================== *)
(** * Facts about the float model *)
(* ===================================================================== *)

Module FloatFacts.
Import Float.
Local Open Scope Q_scope.

(** Rounding half to even moves a number by at most one half. *)
Lemma rhe_bounds (q : Q) :
  inject_Z (rhe q) - (1 # 2) <= q /\ q <= inject_Z (rhe q) + (1 # 2).
Proof.
  destruct q as [n d]. unfold rhe. cbn [Qnum Qden].
  pose proof (Z.div_mod n (Zpos d) ltac:(lia)) as Hdm.
  pose proof (Z.mod_pos_bound n (Zpos d) ltac:(lia)) as Hr.
  set (f := (n / Zpos d)%Z) in *. set (r := (n mod Zpos d)%Z) in *.
  assert (Hcases :
    forall z : Z, (z = f \/ z = f + 1)%Z ->
      (z = f -> 2 * r <= Zpos d)%Z -> (z = f + 1 -> Zpos d <= 2 * r)%Z ->
      inject_Z z - (1 # 2) <= n # d /\ n # d <= inject_Z z + (1 # 2)).
  { intros z Hz Hlo Hhi. unfold Qle, Qminus, Qplus, Qopp, inject_Z. cbn.
    destruct Hz as [-> | ->]; [specialize (Hlo eq_refl) | specialize (Hhi eq_refl)];
      split; nia. }
  destruct (Z.compare_spec (2 * r) (Zpos d)) as [He | Hl | Hg].
  - destruct (Z.even f); apply Hcases; lia.
  - apply Hcases; lia.
  - apply Hcases; lia.
Qed.

(** The model agrees with the primitive binary64 numbers on the literals
    of [estimate_value], on the products of the two sample valuations, and
    with the values CPython gives for [0.9 ** 9] and [0.75 ** 4]. *)
#[local] Set Warnings "-inexact-float".

Example literals_agree :
  of_prim 0.85 = Some (lit (85 # 100)) /\
  of_prim 0.9 = Some (lit (9 # 10)) /\
  of_prim 0.7 = Some (lit (7 # 10)) /\
  of_prim 0.75 = Some (lit (75 # 100)) /\
  of_prim 1.05 = Some (lit (105 # 100)) /\
  of_prim 0.6 = Some (lit (6 # 10)) /\
  of_prim 0.5 = Some (lit (5 # 10)).
Proof. vm_compute. repeat split. Qed.

Example pow_agrees :
  of_prim 0x1.8cb7f4e838a7fp-2 = Some (pow (lit (9 # 10)) 9) /\
  of_prim 0x1.44p-2 = Some (pow (lit (75 # 100)) 4).
Proof. vm_compute. repeat split. Qed.

Example products_agree :
  of_prim (600000 * 0.85 * 0x1.8cb7f4e838a7fp-2 * 1.0)%float
    = Some (mul (mul (mul 600000 (lit (85 # 100))) (pow (lit (9 # 10)) 9)) 1) /\
  of_prim (600000 * 0.85 * 0x1.8cb7f4e838a7fp-2 * 1.0 * 0.6)%float
    = Some (mul (mul (mul (mul 600000 (lit (85 # 100)))
                          (pow (lit (9 # 10)) 9)) 1) (lit (6 # 10))) /\
  of_prim (20000 * 0.7 * 0x1.44p-2 * 1.0)%float
    = Some (mul (mul (mul 20000 (lit (7 # 10))) (pow (lit (75 # 100)) 4)) 1).
Proof. vm_compute. repeat split. Qed.

Lemma pow2_pos (z : Z) : 0 < 2 ^ z.
Proof. apply Qpower_0_lt. reflexivity. Qed.

(** The exponent found by [Qlog2] is not above the number. *)
Lemma Qlog2_le (q : Q) : 0 < q -> 2 ^ Qlog2 q <= q.
Proof.
  intros Hq. unfold Qlog2.
  destruct (Qle_bool _ q) eqn:Hb; [by apply Qle_bool_iff |].
  clear Hb. destruct q as [n d]. cbn [Qnum Qden].
  assert (Hn : (0 < n)%Z) by (unfold Qlt in Hq; cbn in Hq; lia).
  pose proof (Z.log2_spec n Hn) as [Hlo _].
  pose proof (Z.log2_spec (Zpos d) ltac:(lia)) as [_ Hhi].
  pose proof (Z.log2_nonneg n) as Ha.
  pose proof (Z.log2_nonneg (Zpos d)) as Hb.
  replace (Z.log2 n - Z.log2 (Zpos d) - 1)%Z
    with (Z.log2 n - Z.succ (Z.log2 (Zpos d)))%Z by lia.
  rewrite Qpower_minus by discriminate.
  change 2 with (inject_Z 2).
  rewrite <- !Zpower_Qpower by lia.
  set (A := (2 ^ Z.log2 n)%Z) in *.
  set (B := (2 ^ Z.succ (Z.log2 (Zpos d)))%Z) in *.
  apply Qle_shift_div_r.
  - unfold Qlt, inject_Z. cbn. lia.
  - unfold Qle, Qmult, inject_Z. cbn. nia.
Qed.



End FloatFacts.

(* ===================================================================== *)
(** * The valuation engine *)
(* ===================================================================== *)

Section Valuation.
Context {libm : Float.Libm}.
Local Open Scope Q_scope.

(** [max(a, v)] is never below its first argument. *)
Lemma max_ge_l (a v : Q) : a <= Float.max a v.
Proof.
  unfold Float.max. destruct (Qlt_le_dec a v) as [Hlt | Hle].
  - apply Qlt_le_weak, Hlt.
  - apply Qle_refl.
Qed.

(** The two policy constants are the binary64 numbers nearest to 0.6 and
    0.5; both lie in (0, 0.61]. *)
Lemma ltv_policy_bounds (c : Category) :
  0 < ltv_policy c /\ ltv_policy c <= 61 # 100.
Proof. destruct c; vm_compute; split; (reflexivity || discriminate). Qed.

Lemma estimated_of_floor (now_year : Z) (a : LoanAsset) :
  5000 <= estimated_of now_year a.
Proof. unfold estimated_of. apply max_ge_l. Qed.



(** The base table always has the normalised key: the subscript of line
    102 cannot fail. *)
Lemma base_map_total (c : Category) (s : string) :
  is_Some (base_map c !! normalize_subtype c s).
Proof.
  unfold normalize_subtype. destruct c; case_bool_decide as Hk.
  - unfold vehicle_keys in Hk.
    apply elem_of_union in Hk as [Hk | Hk];
      [apply elem_of_union in Hk as [Hk | Hk] |];
      apply elem_of_singleton in Hk; rewrite Hk; by eexists.
  - by eexists.
  - unfold electronics_keys in Hk.
    apply elem_of_union in Hk as [Hk | Hk];
      [apply elem_of_union in Hk as [Hk | Hk] |];
      apply elem_of_singleton in Hk; rewrite Hk; by eexists.
  - by eexists.
Qed.



(** C10: a year equal to 0 is treated as unspecified: the estimate is the
    one of the same asset without a year, aged from the default year 2020
    and not from year 0. *)
Theorem year_zero_is_absent (now_year : Z) (a : LoanAsset) :
  estimate_value now_year (with_year a (Some 0%Z))
    = estimate_value now_year (with_year a None) /\
  asset_age now_year (with_year a (Some 0%Z)) = Z.max 0 (now_year - 2020).
Proof. split; reflexivity. Qed.

End Valuation.

(** ** Sample valuations *)

Section Samples.
Local Open Scope Q_scope.


(** C3, as stated, fails: the estimate of the tablet in 2024 is not near
    5537 and its suggested loan is not near 2769. *)
Lemma tablet_counterexample :
  let e := estimate_value 2024 tablet in
  ~ approx (estimated_value e) 5537 /\ ~ approx (suggested_loan e) 2769.
Proof. vm_compute. split; intros H; apply H; reflexivity. Qed.

(** C3 (amended): the subtype "tablet" normalises to "other" with base
    20000, the age is 4 from the default year 2020, the depreciated value
    [20000 * 0.70 * 0.75^4] is 4429.6875, below the floor, and the estimate
    is 5000 with a suggested loan of 2500 at ratio 0.5. *)
Theorem tablet_estimate :
  normalize_subtype electronics (subtype tablet) = "other" /\
  base_map electronics !! "other" = Some 20000%Z /\
  asset_age 2024 tablet = 4%Z /\
  depreciated electronics 20000 4 == 70875 # 16 /\
  estimate_value 2024 tablet =
    {| estimated_value := 5000; suggested_loan := 2500; ltv := 1 # 2 |}.
Proof. repeat split; vm_compute; reflexivity. Qed.

End Samples.

(* ===================================================================== *)
(** * The loan-request lifecycle *)
(* ===================================================================== *)

Section Lifecycle.
Context {libm : Float.Libm}.

Implicit Types (db : Store) (doc update : gmap string Value).
Implicit Types (id req_id : string) (p payload : StatusUpdateInput).

(** ** The store operations *)

(** A document returned by [find_one] carries its [_id], so it is truthy. *)
Lemma not_doc_find_one db id :
  not_doc (find_one db id) = bool_decide (db !! id = None).
Proof.
  unfold find_one. destruct (db !! id) as [doc |] eqn:H.
  - change (bool_decide (<["_id" := VOid id]> doc = ∅)
            = bool_decide (Some doc = None)).
    rewrite bool_decide_eq_false_2 by apply insert_non_empty.
    by rewrite bool_decide_eq_false_2.
  - change (true = bool_decide (@None (gmap string Value) = None)).
    by rewrite bool_decide_eq_true_2.
Qed.

Lemma update_one_lookup_ne db id id' update :
  id' ≠ id → update_one db id update !! id' = db !! id'.
Proof.
  intros Hne. unfold update_one. destruct (db !! id); [| done].
  by rewrite lookup_insert_ne.
Qed.

(** ** The update dictionary *)

(** What [build_update] returns, by action. *)
Lemma build_update_Approve p :
  action p = "Approve" →
  build_update p = Ok {[ "status" := VStr "Approved" ]}.
Proof. intros H. unfold build_update. by rewrite H. Qed.

Lemma build_update_Reject p :
  action p = "Reject" →
  build_update p = Ok {[ "status" := VStr "Rejected" ]}.
Proof. intros H. unfold build_update. by rewrite H. Qed.

Lemma build_update_Modify p :
  action p = "Modify" →
  build_update p =
    match data p with
    | Some {| mo_offer_amount := Some amount; mo_lender_note := note |} =>
        let update : gmap string Value :=
          <["offer_amount" := VFloat amount]> {[ "status" := VStr "Modified" ]} in
        match truthy_str note with
        | Some n => Ok (<["lender_note" := VStr n]> update)
        | None => Ok update
        end
    | _ => HTTPException 400 "offer_amount required for Modify"
    end.
Proof.
  intros H. unfold build_update. rewrite H. cbn.
  destruct (data p) as [[[amount |] note] |]; reflexivity.
Qed.

Lemma build_update_other p :
  action p ≠ "Approve" → action p ≠ "Reject" → action p ≠ "Modify" →
  build_update p = Ok ∅.
Proof.
  intros H1 H2 H3. unfold build_update.
  by rewrite !bool_decide_eq_false_2.
Qed.

(** ** One call of [update_status] *)

Lemma update_status_missing db req_id p :
  db !! req_id = None →
  update_status db req_id p = (db, HTTPException 404 "Request not found").
Proof.
  intros H. unfold update_status.
  by rewrite not_doc_find_one, bool_decide_eq_true_2.
Qed.

Lemma update_status_raises db req_id p doc c m :
  db !! req_id = Some doc → build_update p = HTTPException c m →
  update_status db req_id p = (db, HTTPException c m).
Proof.
  intros H Hb. unfold update_status.
  rewrite not_doc_find_one, bool_decide_eq_false_2 by congruence.
  by rewrite Hb.
Qed.

Lemma update_status_applies db req_id p doc update :
  db !! req_id = Some doc → build_update p = Ok update → update ≠ ∅ →
  update_status db req_id p =
    (<[req_id := update ∪ doc]> db,
     Ok (serialize_doc (Some (<["_id" := VOid req_id]> (update ∪ doc))))).
Proof.
  intros H Hb Hne. unfold update_status.
  rewrite not_doc_find_one, bool_decide_eq_false_2 by congruence.
  rewrite Hb, bool_decide_eq_false_2 by done.
  unfold update_one, find_one. rewrite H. by rewrite lookup_insert_eq.
Qed.

(** Whatever happens, other requests are left alone. *)
Lemma update_status_other db req_id p id :
  id ≠ req_id → (update_status db req_id p).1 !! id = db !! id.
Proof.
  intros Hne. unfold update_status.
  destruct (not_doc _); [done |].
  destruct (build_update p) as [update | c m]; [| done].
  case_bool_decide; [done |]. cbn. by apply update_one_lookup_ne.
Qed.

Lemma update_status_lookup db req_id p doc update :
  db !! req_id = Some doc → build_update p = Ok update → update ≠ ∅ →
  is_Ok (update_status db req_id p).2 = true ∧
  (update_status db req_id p).1 !! req_id = Some (update ∪ doc).
Proof.
  intros H Hb Hne. rewrite (update_status_applies _ _ _ _ _ H Hb Hne).
  split; [done | apply lookup_insert_eq].
Qed.

(** A field of a patched document: the value of the patch if it has one,
    the stored value otherwise. *)
Lemma lookup_patch update doc (k : string) :
  (update ∪ doc) !! k =
    match update !! k with Some v => Some v | None => doc !! k end.
Proof.
  rewrite lookup_union. destruct (update !! k), (doc !! k); reflexivity.
Qed.

Lemma is_set_patch update doc (k : string) :
  is_set k (update ∪ doc) =
    match update !! k with Some _ => is_set k update | None => is_set k doc end.
Proof.
  unfold is_set. rewrite lookup_patch. by destruct (update !! k).
Qed.

Lemma status_patch_nonempty (v : Value) :
  ({[ "status" := v ]} : gmap string Value) ≠ ∅.
Proof. apply insert_non_empty. Qed.

(** C4: with an existing request, whatever its stored fields, [Approve],
    [Reject] and [Modify] with an offer amount all go through and store the
    new status; a second [Approve] goes through as well and the status stays
    [Approved]. *)
Theorem update_status_unguarded db req_id doc :
  db !! req_id = Some doc →
  (∀ p, action p = "Approve" →
     is_Ok (update_status db req_id p).2 = true ∧
     status_of (update_status db req_id p).1 req_id = Some (VStr "Approved")) ∧
  (∀ p, action p = "Reject" →
     is_Ok (update_status db req_id p).2 = true ∧
     status_of (update_status db req_id p).1 req_id = Some (VStr "Rejected")) ∧
  (∀ p amount, action p = "Modify" → offer_of p = Some amount →
     is_Ok (update_status db req_id p).2 = true ∧
     status_of (update_status db req_id p).1 req_id = Some (VStr "Modified")) ∧
  (∀ p, action p = "Approve" →
     let db1 := (update_status db req_id p).1 in
     status_of db1 req_id = Some (VStr "Approved") ∧
     is_Ok (update_status db1 req_id p).2 = true ∧
     status_of (update_status db1 req_id p).1 req_id = Some (VStr "Approved")).
Proof.
  intros Hdoc.
  assert (Happrove : ∀ db0 doc0 p, db0 !! req_id = Some doc0 →
    action p = "Approve" →
    is_Ok (update_status db0 req_id p).2 = true ∧
    status_of (update_status db0 req_id p).1 req_id = Some (VStr "Approved") ∧
    is_Some ((update_status db0 req_id p).1 !! req_id)).
  { intros db0 doc0 p H0 Hp.
    destruct (update_status_lookup db0 req_id p doc0 _ H0
                (build_update_Approve p Hp) (status_patch_nonempty _))
      as [Hok Hl].
    unfold status_of, field_of. rewrite Hl. cbn. rewrite lookup_patch.
    by rewrite lookup_singleton_eq. }
  repeat split.
  - by apply (Happrove db doc).
  - by apply (Happrove db doc).
  - by destruct (update_status_lookup db req_id p doc _ Hdoc
                   (build_update_Reject p H) (status_patch_nonempty _)).
  - destruct (update_status_lookup db req_id p doc _ Hdoc
                (build_update_Reject p H) (status_patch_nonempty _))
      as [_ Hl].
    unfold status_of, field_of. rewrite Hl. cbn. rewrite lookup_patch.
    by rewrite lookup_singleton_eq.
  - pose proof (build_update_Modify p H) as Hb.
    unfold offer_of in H0. destruct (data p) as [[[x |] note] |]; try done.
    cbn in Hb. destruct (truthy_str note);
      by destruct (update_status_lookup db req_id p doc _ Hdoc Hb
                     ltac:(apply insert_non_empty)).
  - pose proof (build_update_Modify p H) as Hb.
    unfold offer_of in H0. destruct (data p) as [[[x |] note] |]; try done.
    cbn in Hb. unfold status_of, field_of.
    destruct (truthy_str note);
      destruct (update_status_lookup db req_id p doc _ Hdoc Hb
                  ltac:(apply insert_non_empty)) as [_ Hl];
      rewrite Hl; cbn; rewrite lookup_patch; by simplify_map_eq.
  - by apply (Happrove db doc).
  - destruct (Happrove db doc p Hdoc H) as (_ & _ & [doc1 H1]).
    by apply (Happrove _ doc1).
  - destruct (Happrove db doc p Hdoc H) as (_ & _ & [doc1 H1]).
    by apply (Happrove _ doc1).
Qed.

(** [Modify] on an existing request, by the offer amount of the payload. *)
Lemma update_status_Modify_absent db req_id doc p :
  db !! req_id = Some doc → action p = "Modify" → offer_of p = None →
  update_status db req_id p
    = (db, HTTPException 400 "offer_amount required for Modify").
Proof.
  intros Hdoc Hp Hoff. apply (update_status_raises _ _ _ doc); [done |].
  rewrite (build_update_Modify p Hp). unfold offer_of in Hoff.
  by destruct (data p) as [[[x |] note] |].
Qed.

Lemma update_status_Modify_present db req_id doc p amount :
  db !! req_id = Some doc → action p = "Modify" → offer_of p = Some amount →
  ∃ update,
    build_update p = Ok update ∧ update ≠ ∅ ∧
    update !! "status" = Some (VStr "Modified") ∧
    update !! "offer_amount" = Some (VFloat amount) ∧
    (∀ k, k ≠ "status" → k ≠ "offer_amount" → k ≠ "lender_note" →
          update !! k = None) ∧
    (has_note p = false → update !! "lender_note" = None) ∧
    (has_note p = true → ∃ n, n ≠ "" ∧ update !! "lender_note" = Some (VStr n)).
Proof.
  intros Hdoc Hp Hoff. pose proof (build_update_Modify p Hp) as Hb.
  unfold offer_of in Hoff. unfold has_note.
  destruct (data p) as [[[x |] note] |]; try done.
  cbn in Hoff, Hb. injection Hoff as ->. cbn [mo_lender_note].
  unfold truthy_str in *. destruct note as [n |]; [case_bool_decide |];
    eexists; (split; [exact Hb |]);
    (split; [apply insert_non_empty |]);
    repeat split; intros; simplify_map_eq; try done.
  eauto.
Qed.

(** C5: on an existing request, [Modify] raises the 400 error "offer_amount
    required for Modify" exactly when the payload has no offer amount ([data]
    absent or its [offer_amount] null), and then stores nothing; with an
    offer amount it goes through and stores the status [Modified] and that
    amount. *)
Theorem modify_requires_offer db req_id doc p :
  db !! req_id = Some doc → action p = "Modify" →
  ((update_status db req_id p).2
     = HTTPException 400 "offer_amount required for Modify"
   ↔ offer_of p = None) ∧
  (is_Ok (update_status db req_id p).2 = false ↔ offer_of p = None) ∧
  (offer_of p = None → (update_status db req_id p).1 = db) ∧
  (∀ amount, offer_of p = Some amount →
     is_Ok (update_status db req_id p).2 = true ∧
     status_of (update_status db req_id p).1 req_id = Some (VStr "Modified") ∧
     field_of (update_status db req_id p).1 req_id "offer_amount"
       = Some (VFloat amount)).
Proof.
  intros Hdoc Hp.
  assert (Hpresent : ∀ amount, offer_of p = Some amount →
     is_Ok (update_status db req_id p).2 = true ∧
     status_of (update_status db req_id p).1 req_id = Some (VStr "Modified") ∧
     field_of (update_status db req_id p).1 req_id "offer_amount"
       = Some (VFloat amount)).
  { intros amount Hoff.
    destruct (update_status_Modify_present _ _ _ _ _ Hdoc Hp Hoff)
      as (update & Hb & Hne & Hs & Ho & _).
    destruct (update_status_lookup _ _ _ _ _ Hdoc Hb Hne) as [Hok Hl].
    unfold status_of, field_of. rewrite Hl. cbn.
    by rewrite !lookup_patch, Hs, Ho. }
  assert (Habsent : offer_of p = None →
     update_status db req_id p
       = (db, HTTPException 400 "offer_amount required for Modify")).
  { by apply update_status_Modify_absent with doc. }
  split; [| split; [| split]].
  - split.
    + intros Herr. destruct (offer_of p) as [amount |] eqn:Hoff; [| done].
      destruct (Hpresent amount eq_refl) as [Hok _].
      rewrite Herr in Hok. discriminate.
    + intros Hoff. by rewrite Habsent.
  - split.
    + intros Herr. destruct (offer_of p) as [amount |] eqn:Hoff; [| done].
      destruct (Hpresent amount eq_refl) as [Hok _]. congruence.
    + intros Hoff. by rewrite Habsent.
  - intros Hoff. by rewrite Habsent.
  - exact Hpresent.
Qed.

(** C7: on an existing request, [Approve] and [Reject] change no stored
    field other than [status]; [Modify] changes no field other than
    [status], [offer_amount] and [lender_note], and leaves [lender_note] as
    it was when the payload carries no note or an empty one; and no other
    request of the collection is touched. *)
Theorem update_status_frame db req_id doc p :
  db !! req_id = Some doc →
  (action p = "Approve" ∨ action p = "Reject" →
     ∀ k, k ≠ "status" →
       field_of (update_status db req_id p).1 req_id k = doc !! k) ∧
  (action p = "Modify" → has_note p = false →
     field_of (update_status db req_id p).1 req_id "lender_note"
       = doc !! "lender_note") ∧
  (action p = "Modify" →
     ∀ k, k ≠ "status" → k ≠ "offer_amount" → k ≠ "lender_note" →
       field_of (update_status db req_id p).1 req_id k = doc !! k) ∧
  (∀ id, id ≠ req_id → (update_status db req_id p).1 !! id = db !! id).
Proof.
  intros Hdoc.
  assert (Hmodify : action p = "Modify" → ∀ k,
    (k = "lender_note" ∧ has_note p = false) ∨
    (k ≠ "status" ∧ k ≠ "offer_amount" ∧ k ≠ "lender_note") →
    field_of (update_status db req_id p).1 req_id k = doc !! k).
  { intros Hp k Hk. unfold field_of.
    destruct (offer_of p) as [amount |] eqn:Hoff.
    - destruct (update_status_Modify_present _ _ _ _ _ Hdoc Hp Hoff)
        as (update & Hb & Hne & _ & _ & Hrest & Hnote & _).
      destruct (update_status_lookup _ _ _ _ _ Hdoc Hb Hne) as [_ Hl].
      rewrite Hl. cbn. rewrite lookup_patch.
      destruct Hk as [[-> Hn] | (H1 & H2 & H3)].
      + by rewrite (Hnote Hn).
      + by rewrite (Hrest k H1 H2 H3).
    - rewrite (update_status_Modify_absent _ _ _ _ Hdoc Hp Hoff). cbn.
      by rewrite Hdoc. }
  split; [| split; [| split]].
  - intros Hp k Hk. unfold field_of.
    assert (∃ v, build_update p = Ok {[ "status" := v ]}) as [v Hb].
    { destruct Hp as [Hp | Hp]; eexists;
        [by apply build_update_Approve | by apply build_update_Reject]. }
    destruct (update_status_lookup _ _ _ _ _ Hdoc Hb
                (status_patch_nonempty v)) as [_ Hl].
    rewrite Hl. cbn. rewrite lookup_patch.
    by rewrite lookup_singleton_ne.
  - intros Hp Hn. apply Hmodify; auto.
  - intros Hp k H1 H2 H3. apply Hmodify; auto.
  - intros id Hid. by apply update_status_other.
Qed.

(** C9: when the action is one of the three literals of its type, the
    update dictionary is never empty and [update_status] never raises
    "No update provided". *)
Theorem no_update_unreachable db req_id p :
  action p = "Approve" ∨ action p = "Reject" ∨ action p = "Modify" →
  (∀ update, build_update p = Ok update → update ≠ ∅) ∧
  (update_status db req_id p).2 ≠ HTTPException 400 "No update provided".
Proof.
  intros Hp.
  assert (Hne : ∀ update, build_update p = Ok update → update ≠ ∅).
  { intros update Hb. destruct Hp as [Hp | [Hp | Hp]].
    - rewrite (build_update_Approve p Hp) in Hb. injection Hb as <-.
      apply status_patch_nonempty.
    - rewrite (build_update_Reject p Hp) in Hb. injection Hb as <-.
      apply status_patch_nonempty.
    - rewrite (build_update_Modify p Hp) in Hb.
      destruct (data p) as [[[x |] note] |]; try done. cbn in Hb.
      destruct (truthy_str note); injection Hb as <-;
        apply insert_non_empty. }
  split; [exact Hne |].
  destruct (db !! req_id) as [doc |] eqn:Hdoc.
  - destruct (build_update p) as [update | c m] eqn:Hb.
    + by rewrite (update_status_applies _ _ _ _ _ Hdoc Hb (Hne _ eq_refl)).
    + rewrite (update_status_raises _ _ _ _ _ _ Hdoc Hb). cbn.
      destruct Hp as [Hp | [Hp | Hp]].
      * by rewrite (build_update_Approve p Hp) in Hb.
      * by rewrite (build_update_Reject p Hp) in Hb.
      * rewrite (build_update_Modify p Hp) in Hb.
        destruct (data p) as [[[x |] note] |]; cbn in Hb;
          try destruct (truthy_str note); by simplify_eq.
  - by rewrite (update_status_missing _ _ _ Hdoc).
Qed.

(** Outside the type, the guard is live: an action that is none of the
    three literals reaches "No update provided". *)
Lemma no_update_reached_untyped db req_id doc p :
  db !! req_id = Some doc →
  action p ≠ "Approve" → action p ≠ "Reject" → action p ≠ "Modify" →
  update_status db req_id p = (db, HTTPException 400 "No update provided").
Proof.
  intros Hdoc H1 H2 H3. unfold update_status.
  rewrite not_doc_find_one, bool_decide_eq_false_2 by congruence.
  rewrite (build_update_other p H1 H2 H3).
  by rewrite bool_decide_eq_true_2.
Qed.

(** ** Creation *)

Lemma dump_LoanRequest_fields (r : LoanRequest) :
  dump_LoanRequest r !! "status" = Some (VStr (Status_str (status r))) ∧
  dump_LoanRequest r !! "offer_amount" = Some (of_opt VFloat (offer_amount r)) ∧
  dump_LoanRequest r !! "lender_note" = Some (of_opt VStr (lender_note r)) ∧
  dump_LoanRequest r !! "source" = Some (VStr (Source_str (source r))) ∧
  dump_LoanRequest r !! "lender_id" = Some (of_opt VStr (lender_id r)).
Proof. unfold dump_LoanRequest. repeat split; by simplify_map_eq. Qed.

Lemma create_loan_request_stored now_year new_id db
    (payload : CreateLoanInput) :
  ∃ r, (create_loan_request now_year new_id db payload).1 !! new_id
         = Some (dump_LoanRequest r) ∧
       status r = Pending ∧ offer_amount r = None ∧ lender_note r = None ∧
       source r = platform ∧ lender_id r = None.
Proof.
  unfold create_loan_request, create_document. cbn.
  eexists. split; [apply lookup_insert_eq | done].
Qed.

Lemma create_byob_stored now_year new_id db (payload : BYOBInput) :
  ∃ r, (create_byob now_year new_id db payload).1 !! new_id
         = Some (dump_LoanRequest r) ∧
       status r = Pending ∧ offer_amount r = None ∧ lender_note r = None ∧
       source r = byob ∧
       lender_id r = Some (lender_identity (by_lender payload)).
Proof.
  unfold create_byob, create_document. cbn.
  eexists. split; [apply lookup_insert_eq | done].
Qed.

(** C8: the [lender_id] stored by a BYOB creation is the lender's company
    when it is given and not empty, else the lender's name when it is not
    empty, else the literal "lender"; with the name "Raj" and no company it
    is "Raj", and with neither it is "lender". *)
Theorem create_byob_lender_id now_year new_id db
    (name : string) (mobile company : option string)
    (b : Borrower) (a : LoanAsset) :
  let stored_lender_id name company :=
    field_of
      (create_byob now_year new_id db
         {| by_lender :=
              {| l_name := name; l_mobile := mobile; l_company := company |};
            by_borrower := b; by_asset := a |}).1
      new_id "lender_id" in
  let name_or_fallback := if decide (name = "") then "lender" else name in
  stored_lender_id name company =
    Some (VStr match company with
               | Some c => if decide (c = "") then name_or_fallback else c
               | None => name_or_fallback
               end) ∧
  stored_lender_id "Raj" None = Some (VStr "Raj") ∧
  stored_lender_id "" None = Some (VStr "lender").
Proof.
  intros stored_lender_id name_or_fallback.
  assert (Hstored : ∀ n c,
    field_of
      (create_byob now_year new_id db
         {| by_lender := {| l_name := n; l_mobile := mobile; l_company := c |};
            by_borrower := b; by_asset := a |}).1
      new_id "lender_id"
    = Some (VStr (lender_identity
                    {| l_name := n; l_mobile := mobile; l_company := c |}))).
  { intros n c. unfold field_of.
    destruct (create_byob_stored now_year new_id db
      {| by_lender := {| l_name := n; l_mobile := mobile; l_company := c |};
         by_borrower := b; by_asset := a |}) as (r & -> & _ & _ & _ & _ & Hl).
    cbn. destruct (dump_LoanRequest_fields r) as (_ & _ & _ & _ & ->).
    by rewrite Hl. }
  unfold stored_lender_id, name_or_fallback. rewrite !Hstored.
  split; [| done].
  unfold lender_identity, truthy_str. cbn.
  destruct company as [c |]; repeat case_bool_decide; repeat case_decide;
    congruence.
Qed.

(** ** Histories *)

Lemma step_tracks id h op : tracks id h → tracks id (step id h op).
Proof.
  intros (doc & Hdoc & Hoff & Hnote). destruct op as [req_id p].
  unfold step, tracks. cbn [fst snd].
  destruct (update_status (h_db h) req_id p) as [db' r] eqn:Hstep.
  cbn [h_db h_modified h_noted].
  destruct (decide (req_id = id)) as [-> | Hne].
  2: { rewrite (bool_decide_eq_false_2 _ Hne). cbn. rewrite !orb_false_r.
       exists doc. split; [| done].
       pose proof (update_status_other (h_db h) req_id p id
                     ltac:(congruence)) as Ho.
       rewrite Hstep in Ho. cbn in Ho. by rewrite Ho. }
  rewrite bool_decide_eq_true_2 by done. cbn [andb].
  destruct (decide (action p = "Modify")) as [Hp | Hp].
  - rewrite (bool_decide_eq_true_2 _ Hp), andb_true_r.
    destruct (offer_of p) as [amount |] eqn:Ho.
    + destruct (update_status_Modify_present _ _ _ _ _ Hdoc Hp Ho)
        as (update & Hb & Hnz & _ & Hamount & _ & Hn0 & Hn1).
      destruct (update_status_lookup _ _ _ _ _ Hdoc Hb Hnz) as [Hok Hl].
      rewrite Hstep in Hok, Hl. cbn in Hok, Hl. rewrite Hok. cbn [andb].
      exists (update ∪ doc). split; [done |]. rewrite !is_set_patch, Hamount.
      rewrite orb_true_r.
      split; [unfold is_set; by rewrite Hamount |].
      destruct (has_note p) eqn:Hn.
      * destruct (Hn1 eq_refl) as (n & _ & Hln). rewrite Hln, orb_true_r.
        unfold is_set. by rewrite Hln.
      * by rewrite (Hn0 eq_refl), orb_false_r.
    + rewrite (update_status_Modify_absent _ _ _ _ Hdoc Hp Ho) in Hstep.
      injection Hstep as <- <-. cbn. rewrite !orb_false_r. by exists doc.
  - rewrite (bool_decide_eq_false_2 _ Hp), andb_false_r. cbn.
    rewrite !orb_false_r.
    assert (Hcases :
      (∃ v, build_update p = Ok ({[ "status" := v ]} : gmap string Value)) ∨
      build_update p = Ok ∅).
    { destruct (decide (action p = "Approve")) as [Ha | Ha];
        [left; eexists; by apply build_update_Approve |].
      destruct (decide (action p = "Reject")) as [Hr | Hr];
        [left; eexists; by apply build_update_Reject |].
      right. by apply build_update_other. }
    destruct Hcases as [[v Hb] | Hb].
    + destruct (update_status_lookup _ _ _ _ _ Hdoc Hb
                  (status_patch_nonempty v)) as [_ Hl].
      rewrite Hstep in Hl. cbn in Hl.
      eexists. split; [exact Hl |].
      by rewrite !is_set_patch, !lookup_singleton_ne.
    + exists doc. split; [| done].
      unfold update_status in Hstep.
      rewrite not_doc_find_one, bool_decide_eq_false_2 in Hstep by congruence.
      rewrite Hb, bool_decide_eq_true_2 in Hstep by done.
      by injection Hstep as <- _.
Qed.

Lemma foldl_step_tracks id ops h :
  tracks id h → tracks id (foldl (step id) h ops).
Proof.
  revert h. induction ops as [| op ops IH]; intros h Hh; [done |].
  cbn. apply IH. by apply step_tracks.
Qed.

(** A history without [Modify] leaves both flags down. *)
Lemma foldl_step_no_modify id ops h :
  Forall (λ op, action op.2 ≠ "Modify") ops →
  h_modified (foldl (step id) h ops) = h_modified h ∧
  h_noted (foldl (step id) h ops) = h_noted h.
Proof.
  intros Hall. revert h.
  induction Hall as [| op ops Hop _ IH]; intros h; [done |].
  cbn. destruct (IH (step id h op)) as [-> ->].
  unfold step. destruct (update_status _ _ _) as [db' r]. cbn.
  rewrite (bool_decide_eq_false_2 _ Hop), andb_false_r. cbn.
  by rewrite !orb_false_r.
Qed.

Lemma fresh_tracks id db (r : LoanRequest) :
  db !! id = Some (dump_LoanRequest r) →
  offer_amount r = None → lender_note r = None →
  tracks id {| h_db := db; h_modified := false; h_noted := false |}.
Proof.
  intros Hdb Ho Hn. exists (dump_LoanRequest r). split; [done |].
  destruct (dump_LoanRequest_fields r) as (_ & Hf1 & Hf2 & _).
  unfold is_set. rewrite Hf1, Hf2, Ho, Hn. done.
Qed.

(** C2, as stated, fails: after a creation and one [Modify] with an offer
    of 1000 and no note, the request went through a [Modify] transition and
    its [offer_amount] is set, but its [lender_note] is still null. *)
Lemma modify_without_note_counterexample :
  let h := run "r1" sample_db [("r1", modify 1000 None)] in
  h_modified h = true ∧
  field_of (h_db h) "r1" "offer_amount" = Some (VFloat 1000) ∧
  field_of (h_db h) "r1" "lender_note" = Some VNull ∧
  ¬ both_set_iff_modified "r1" h.
Proof.
  intros h.
  assert (Hm : h_modified h = true) by (by vm_compute).
  assert (Ho : field_of (h_db h) "r1" "offer_amount" = Some (VFloat 1000))
    by (by vm_compute).
  assert (Hn : field_of (h_db h) "r1" "lender_note" = Some VNull)
    by (by vm_compute).
  clearbody h.
  split; [exact Hm |]. split; [exact Ho |]. split; [exact Hn |].
  intros (doc & Hdoc & Hiff). unfold field_of in Hn. rewrite Hdoc in Hn.
  destruct Hiff as [_ Hiff]. destruct (Hiff Hm) as [_ Hnote].
  unfold is_set in Hnote. cbn in Hn. rewrite Hn in Hnote. discriminate.
Qed.

(** C2 (amended): for a request created by either path and then any
    sequence of status updates on any requests, [offer_amount] is set
    exactly when the request went through at least one [Modify] transition,
    and [lender_note] is set exactly when at least one of these transitions
    carried a non-empty note; both are unset when the sequence has no
    [Modify] at all, in particular on the fresh record. *)
Theorem offer_and_note_history now_year new_id db (c : Creation)
    (ops : list (string * StatusUpdateInput)) :
  let h := run new_id (create now_year new_id db c) ops in
  ∃ doc, h_db h !! new_id = Some doc ∧
    is_set "offer_amount" doc = h_modified h ∧
    is_set "lender_note" doc = h_noted h ∧
    (Forall (λ op, action op.2 ≠ "Modify") ops →
       is_set "offer_amount" doc = false ∧ is_set "lender_note" doc = false).
Proof.
  cbn zeta. unfold run.
  assert (Hfresh : tracks new_id
    {| h_db := create now_year new_id db c;
       h_modified := false; h_noted := false |}).
  { destruct c as [payload | payload]; cbn [create].
    - destruct (create_loan_request_stored now_year new_id db payload)
        as (r & Hr & _ & Ho & Hn & _).
      by apply (fresh_tracks _ _ r).
    - destruct (create_byob_stored now_year new_id db payload)
        as (r & Hr & _ & Ho & Hn & _).
      by apply (fresh_tracks _ _ r). }
  destruct (foldl_step_tracks new_id ops _ Hfresh) as (doc & Hdoc & Ho & Hn).
  exists doc. split; [done |]. split; [done |]. split; [done |].
  intros Hall.
  destruct (foldl_step_no_modify new_id ops
    {| h_db := create now_year new_id db c;
       h_modified := false; h_noted := false |} Hall) as [Hm Hnn].
  by rewrite Ho, Hn, Hm, Hnn.
Qed.

End Lifecycle.

(** ** The theorems at a sample request *)

Example byob_raj :
  field_of (create_byob 2024 "b1" ∅ (sample_byob "Raj" None)).1 "b1" "lender_id"
    = Some (VStr "Raj") ∧
  field_of (create_byob 2024 "b1" ∅ (sample_byob "Raj" (Some "Acme"))).1
    "b1" "lender_id" = Some (VStr "Acme").
Proof. by vm_compute. Qed.

Example approve_after_reject :
  let h := run "r1" sample_db [("r1", reject); ("r1", approve)] in
  status_of (h_db h) "r1" = Some (VStr "Approved") ∧
  h_modified h = false.
Proof. by vm_compute. Qed.

Lemma sample_db_lookup : sample_db !! "r1" = Some sample_doc.
Proof. vm_compute. reflexivity. Defined.

Lemma update_status_unguarded_witness :
  sample_db !! "r1" = Some sample_doc ∧
  status_of
    (update_status (update_status sample_db "r1" approve).1 "r1" approve).1
    "r1" = Some (VStr "Approved").
Proof.
  split; [exact sample_db_lookup |].
  destruct (update_status_unguarded sample_db "r1" sample_doc sample_db_lookup)
    as (_ & _ & _ & Hagain).
  apply (Hagain approve eq_refl).
Defined.

Lemma modify_requires_offer_witness :
  sample_db !! "r1" = Some sample_doc ∧
  action (modify 1000 None) = "Modify" ∧
  field_of (update_status sample_db "r1" (modify 1000 None)).1 "r1"
    "offer_amount" = Some (VFloat 1000).
Proof.
  split; [exact sample_db_lookup |]. split; [reflexivity |].
  destruct (modify_requires_offer sample_db "r1" sample_doc (modify 1000 None)
              sample_db_lookup eq_refl) as (_ & _ & _ & Hpresent).
  apply (Hpresent 1000%Q eq_refl).
Defined.

Lemma update_status_frame_witness :
  sample_db !! "r1" = Some sample_doc ∧
  field_of (update_status sample_db "r1" approve).1 "r1" "offer_amount"
    = sample_doc !! "offer_amount".
Proof.
  split; [exact sample_db_lookup |].
  destruct (update_status_frame sample_db "r1" sample_doc approve
              sample_db_lookup) as (Hframe & _).
  apply Hframe; [left; reflexivity | discriminate].
Defined.

Lemma no_update_unreachable_witness :
  (action approve = "Approve" ∨ action approve = "Reject"
   ∨ action approve = "Modify") ∧
  (update_status sample_db "r1" approve).2
    ≠ HTTPException 400 "No update provided".
Proof.
  split; [left; reflexivity |].
  apply (no_update_unreachable sample_db "r1" approve). left. reflexivity.
Defined.

(* ===================================================================== *)
(** * Further properties of the valuation *)
(* ===================================================================== *)

Section ValuationMore.
Context {libm : Float.Libm}.
Local Open Scope Q_scope.

Lemma lower_ascii_idemp (c : ascii) : lower_ascii (lower_ascii c) = lower_ascii c.
Proof. destruct c as [[] [] [] [] [] [] [] []]; reflexivity. Qed.

Lemma lower_idemp (s : string) : lower (lower s) = lower s.
Proof.
  induction s as [| c s IH]; [done |].
  cbn. by rewrite lower_ascii_idemp, IH.
Qed.

(** The normalised key is one of the three keys of the category. *)
Lemma normalize_subtype_keys (c : Category) (s : string) :
  match c with
  | vehicle => normalize_subtype c s ∈ vehicle_keys
  | electronics => normalize_subtype c s ∈ electronics_keys
  end.
Proof.
  unfold normalize_subtype. destruct c; case_bool_decide; done.
Qed.

Lemma normalize_subtype_cases (c : Category) (s : string) :
  match c with
  | vehicle => normalize_subtype c s = "2-wheeler"
               ∨ normalize_subtype c s = "3-wheeler"
               ∨ normalize_subtype c s = "4-wheeler"
  | electronics => normalize_subtype c s = "laptop"
               ∨ normalize_subtype c s = "mobile"
               ∨ normalize_subtype c s = "other"
  end.
Proof.
  pose proof (normalize_subtype_keys c s) as Hk.
  destruct c; [unfold vehicle_keys in Hk | unfold electronics_keys in Hk];
    rewrite !elem_of_union, !elem_of_singleton in Hk; tauto.
Qed.

Lemma normalize_subtype_idemp (c : Category) (s : string) :
  normalize_subtype c (normalize_subtype c s) = normalize_subtype c s.
Proof.
  pose proof (normalize_subtype_cases c s) as Hcase.
  destruct c; destruct Hcase as [-> | [-> | ->]]; by vm_compute.
Qed.

Lemma base_cases (c : Category) (s : string) :
  match c with
  | vehicle => base_map c !!! normalize_subtype c s ∈ [80000; 200000; 600000]%Z
  | electronics => base_map c !!! normalize_subtype c s ∈ [60000; 40000; 20000]%Z
  end.
Proof.
  pose proof (normalize_subtype_cases c s) as Hcase.
  destruct c; destruct Hcase as [-> | [-> | ->]];
    rewrite !elem_of_cons; auto.
Qed.

(** Any subtype text is accepted: the normalised key is in the table of
    the category, with one of its three base values, and normalising it
    again changes nothing. *)
Theorem normalize_subtype_canonical (c : Category) (s : string) :
  (∃ base : Z,
     base_map c !! normalize_subtype c s = Some base ∧
     base_map c !!! normalize_subtype c s = base ∧
     match c with
     | vehicle => base ∈ [80000; 200000; 600000]%Z
     | electronics => base ∈ [60000; 40000; 20000]%Z
     end) ∧
  normalize_subtype c (normalize_subtype c s) = normalize_subtype c s.
Proof.
  split; [| apply normalize_subtype_idemp].
  destruct (base_map_total c s) as [base Hbase].
  exists base. split; [exact Hbase |].
  assert (Htot : base_map c !!! normalize_subtype c s = base)
    by (by apply lookup_total_correct).
  split; [exact Htot |]. rewrite <- Htot. apply base_cases.
Qed.

(** The estimate is a function of the category, the normalised key, the
    age and the condition. *)
Lemma estimate_value_ext (now1 now2 : Z) (a1 a2 : LoanAsset) :
  category a1 = category a2 →
  normalize_subtype (category a1) (subtype a1)
    = normalize_subtype (category a2) (subtype a2) →
  asset_age now1 a1 = asset_age now2 a2 →
  condition a1 = condition a2 →
  estimate_value now1 a1 = estimate_value now2 a2.
Proof.
  intros Hc Hs Ha Hd. unfold estimate_value, estimated_of.
  rewrite Hs, Ha, Hd, Hc. reflexivity.
Qed.

(** The estimate depends on the subtype only through its normalised key:
    letter case is ignored and an unknown subtype is valued as ["2-wheeler"]
    (vehicles) or ["other"] (electronics). *)
Theorem estimate_value_subtype (now_year : Z) (a : LoanAsset) (s : string) :
  estimate_value now_year (with_subtype a s)
    = estimate_value now_year
        (with_subtype a (normalize_subtype (category a) s)) ∧
  estimate_value now_year (with_subtype a (lower s))
    = estimate_value now_year (with_subtype a s) ∧
  (lower s ∉ (match category a with
              | vehicle => vehicle_keys
              | electronics => electronics_keys
              end) →
   estimate_value now_year (with_subtype a s)
     = estimate_value now_year
         (with_subtype a (match category a with
                          | vehicle => "2-wheeler"
                          | electronics => "other"
                          end))).
Proof.
  assert (Hnorm : ∀ s1 s2,
    normalize_subtype (category a) s1 = normalize_subtype (category a) s2 →
    estimate_value now_year (with_subtype a s1)
      = estimate_value now_year (with_subtype a s2)).
  { intros s1 s2 Heq. by apply estimate_value_ext. }
  split; [| split].
  - apply Hnorm. symmetry. apply normalize_subtype_idemp.
  - apply Hnorm. unfold normalize_subtype. by rewrite lower_idemp.
  - intros Hnot. apply Hnorm. unfold normalize_subtype.
    destruct (category a); rewrite (bool_decide_eq_false_2 _ Hnot);
      by vm_compute.
Qed.

(** An asset dated in the current year or later has age 0 and the estimate
    of an asset of the current year. *)
Theorem future_year_clamped (now_year y : Z) (a : LoanAsset) :
  y ≠ 0%Z → (now_year <= y)%Z →
  asset_age now_year (with_year a (Some y)) = 0%Z ∧
  estimate_value now_year (with_year a (Some y))
    = estimate_value now_year (with_year a (Some now_year)).
Proof.
  intros Hy Hle.
  assert (Hage : ∀ z, (z = y ∨ z = now_year) →
            asset_age now_year (with_year a (Some z)) = 0%Z).
  { intros z Hz. unfold asset_age, or_int, with_year, year.
    destruct (Z.eqb_spec z 0); lia. }
  split; [apply Hage; by left |].
  apply estimate_value_ext; try reflexivity.
  by rewrite (Hage y), (Hage now_year) by auto.
Qed.

Lemma depreciated_vehicle_first_years (base : Z) :
  depreciated vehicle base 1 = depreciated vehicle base 0.
Proof.
  unfold depreciated.
  change (Z.max 0 (1 - 1)) with 0%Z. change (Z.max 0 (0 - 1)) with 0%Z.
  reflexivity.
Qed.

(** A vehicle loses nothing between its first and its second year: the
    vehicle of last year is valued as the vehicle of this year. *)
Theorem vehicle_first_year_flat (now_year : Z) (a : LoanAsset) :
  category a = vehicle → now_year ≠ 0%Z → now_year ≠ 1%Z →
  estimate_value now_year (with_year a (Some (now_year - 1)%Z))
    = estimate_value now_year (with_year a (Some now_year)).
Proof.
  intros Hc H0 H1.
  assert (Hage1 : asset_age now_year (with_year a (Some (now_year - 1)%Z)) = 1%Z).
  { unfold asset_age, or_int, with_year, year.
    destruct (Z.eqb_spec (now_year - 1) 0); lia. }
  assert (Hage0 : asset_age now_year (with_year a (Some now_year)) = 0%Z).
  { unfold asset_age, or_int, with_year, year.
    destruct (Z.eqb_spec now_year 0); lia. }
  unfold estimate_value, estimated_of. rewrite Hage1, Hage0.
  change (category (with_year a (Some (now_year - 1)%Z))) with (category a).
  change (category (with_year a (Some now_year))) with (category a).
  rewrite Hc, depreciated_vehicle_first_years. reflexivity.
Qed.

End ValuationMore.

(* ===================================================================== *)
(** * Order properties of the float model *)
(* ===================================================================== *)

Module FloatOrder.
Import Float FloatFacts.
Local Open Scope Q_scope.

Lemma rhe_le_int (q : Q) (z : Z) : q <= inject_Z z -> (rhe q <= z)%Z.
Proof.
  intros Hz. pose proof (rhe_bounds q) as [Hlo _].
  assert (H : inject_Z (rhe q) - (1 # 2) <= inject_Z z) by lra.
  revert H. generalize (rhe q). intros r.
  unfold Qle, Qminus, Qplus, Qopp, inject_Z. cbn. lia.
Qed.

Lemma rhe_ge_int (q : Q) (z : Z) : inject_Z z <= q -> (z <= rhe q)%Z.
Proof.
  intros Hz. pose proof (rhe_bounds q) as [_ Hhi].
  assert (H : inject_Z z <= inject_Z (rhe q) + (1 # 2)) by lra.
  revert H. generalize (rhe q). intros r.
  unfold Qle, Qplus, inject_Z. cbn. lia.
Qed.

(** A number strictly within one half of an integer rounds to it. *)
Lemma rhe_near (q : Q) (z : Z) :
  inject_Z z - (1 # 2) < q -> q < inject_Z z + (1 # 2) -> rhe q = z.
Proof.
  intros Hlo Hhi. pose proof (rhe_bounds q) as [Hr1 Hr2].
  assert (H1 : inject_Z (rhe q) < inject_Z z + 1) by lra.
  assert (H2 : inject_Z z < inject_Z (rhe q) + 1) by lra.
  revert H1 H2. generalize (rhe q). intros r.
  unfold Qlt, Qplus, inject_Z. cbn. lia.
Qed.

(** A number half-way between two integers rounds to the even one. *)
Lemma rhe_tie (q : Q) (z : Z) :
  q == inject_Z z + (1 # 2) -> rhe q = if Z.even z then z else (z + 1)%Z.
Proof.
  destruct q as [n d]. unfold Qeq, Qplus, inject_Z. cbn. intros H.
  unfold rhe. cbn [Qnum Qden].
  assert (Hd : exists h, (Zpos d = 2 * h /\ 0 < h /\ n = z * (2 * h) + h)%Z).
  { exists (n - z * Zpos d)%Z. lia. }
  destruct Hd as (h & Hd & Hh & Hn). rewrite Hd, Hn.
  assert (Hf : ((z * (2 * h) + h) / (2 * h) = z)%Z).
  { symmetry. apply (Z.div_unique_pos _ _ z h); lia. }
  assert (Hm : ((z * (2 * h) + h) mod (2 * h) = h)%Z).
  { symmetry. apply (Z.mod_unique_pos _ _ z h); lia. }
  rewrite Hf, Hm, Z.compare_refl. reflexivity.
Qed.

Lemma rhe_mono (q1 q2 : Q) : q1 <= q2 -> (rhe q1 <= rhe q2)%Z.
Proof.
  intros Hle. destruct (Z_le_gt_dec (rhe q1) (rhe q2)) as [H | H]; [exact H |].
  exfalso.
  pose proof (rhe_bounds q1) as [Ha1 Ha2].
  pose proof (rhe_bounds q2) as [Hb1 Hb2].
  assert (Hz : inject_Z (rhe q2) + 1 <= inject_Z (rhe q1)).
  { revert H. generalize (rhe q1) (rhe q2). intros r1 r2 H.
    unfold Qle, Qplus, inject_Z. cbn. lia. }
  assert (E1 : q1 == inject_Z (rhe q2) + (1 # 2)) by lra.
  assert (E2 : q2 == inject_Z (rhe q2) + (1 # 2)) by lra.
  pose proof (rhe_tie q1 _ E1) as R1. pose proof (rhe_tie q2 _ E2) as R2.
  assert (rhe q1 = rhe q2) by congruence. lia.
Qed.

Lemma Qlog2_lt (q : Q) : 0 < q -> q < 2 ^ (Qlog2 q + 1).
Proof.
  intros Hq. unfold Qlog2.
  destruct (Qle_bool _ q) eqn:Hb.
  - clear Hb. destruct q as [n d]. cbn [Qnum Qden].
    assert (Hn : (0 < n)%Z) by (unfold Qlt in Hq; cbn in Hq; lia).
    pose proof (Z.log2_spec n Hn) as [_ Hhi].
    pose proof (Z.log2_spec (Zpos d) ltac:(lia)) as [Hlo _].
    pose proof (Z.log2_nonneg n) as Ha.
    pose proof (Z.log2_nonneg (Zpos d)) as Hb.
    replace (Z.log2 n - Z.log2 (Zpos d) + 1)%Z
      with (Z.succ (Z.log2 n) - Z.log2 (Zpos d))%Z by lia.
    rewrite Qpower_minus by discriminate.
    change 2 with (inject_Z 2).
    rewrite <- !Zpower_Qpower by lia.
    set (A := (2 ^ Z.succ (Z.log2 n))%Z) in *.
    set (B := (2 ^ Z.log2 (Zpos d))%Z) in *.
    apply Qlt_shift_div_l.
    + unfold Qlt, inject_Z. cbn. lia.
    + unfold Qlt, Qmult, inject_Z. cbn. nia.
  - replace (Z.log2 (Qnum q) - Z.log2 (Zpos (Qden q)) - 1 + 1)%Z
      with (Z.log2 (Qnum q) - Z.log2 (Zpos (Qden q)))%Z by lia.
    apply Qnot_le_lt. intros Hle. apply Qle_bool_iff in Hle. congruence.
Qed.

Lemma Qlog2_mono (q1 q2 : Q) : 0 < q1 -> q1 <= q2 -> (Qlog2 q1 <= Qlog2 q2)%Z.
Proof.
  intros H1 H12.
  pose proof (Qlog2_le q1 H1) as Hlo.
  pose proof (Qlog2_lt q2 ltac:(lra)) as Hhi.
  assert (Hlt : 2 ^ Qlog2 q1 < 2 ^ (Qlog2 q2 + 1)) by lra.
  apply Qpower_lt_compat_l_inv in Hlt; [lia | reflexivity].
Qed.

Lemma Qabs_pos_eq (q : Q) : 0 < q -> Qabs q = q.
Proof.
  destruct q as [n d]. unfold Qlt. cbn. intros Hq. unfold Qabs.
  rewrite Z.abs_eq by lia. reflexivity.
Qed.

(** The spacing of the binade of [q], relative to [q]. *)
Lemma ulp_tight (q : Q) :
  0 < q -> 2 ^ ulp_exp q <= q * 2 ^ (-52) + 2 ^ (-1074).
Proof.
  intros Hq. unfold ulp_exp. rewrite (Qabs_pos_eq q Hq).
  pose proof (pow2_pos (-52)) as H52. pose proof (pow2_pos (-1074)) as H1074.
  pose proof (Qlog2_le q Hq) as HL.
  apply Z.max_case_strong; intros _.
  - replace (Qlog2 q - 52)%Z with (Qlog2 q + -52)%Z by lia.
    rewrite Qpower_plus by discriminate.
    assert (2 ^ Qlog2 q * 2 ^ (-52) <= q * 2 ^ (-52))
      by (apply Qmult_le_compat_r; lra).
    set (a := 2 ^ Qlog2 q * 2 ^ (-52)) in *. set (b := q * 2 ^ (-52)) in *.
    clearbody a b. lra.
  - assert (0 <= q * 2 ^ (-52)) by (apply Qmult_le_0_compat; lra).
    set (b := q * 2 ^ (-52)) in *. clearbody b. lra.
Qed.

Lemma fl_unfold (q : Q) :
  fl q == inject_Z (rhe (q / 2 ^ ulp_exp q)) * 2 ^ ulp_exp q.
Proof. unfold fl. apply Qred_correct. Qed.

(** Rounding to binary64 moves a number by at most half the spacing. *)
Lemma fl_error (q : Q) :
  q - (1 # 2) * 2 ^ ulp_exp q <= fl q /\ fl q <= q + (1 # 2) * 2 ^ ulp_exp q.
Proof.
  rewrite fl_unfold. pose proof (pow2_pos (ulp_exp q)) as Hp.
  set (u := 2 ^ ulp_exp q) in *.
  pose proof (rhe_bounds (q / u)) as [Hlo Hhi].
  assert (He : q / u * u == q).
  { field. intros H0. rewrite H0 in Hp. discriminate. }
  set (t := q / u) in *. set (r := inject_Z (rhe t)) in *. clearbody r t u.
  assert (H1 : (r - (1 # 2)) * u <= t * u) by (apply Qmult_le_compat_r; lra).
  assert (H2 : t * u <= (r + (1 # 2)) * u) by (apply Qmult_le_compat_r; lra).
  rewrite He in H1, H2.
  assert (E1 : (r - (1 # 2)) * u == r * u - (1 # 2) * u) by ring.
  assert (E2 : (r + (1 # 2)) * u == r * u + (1 # 2) * u) by ring.
  rewrite E1 in H1. rewrite E2 in H2.
  set (p := r * u) in *. set (h := (1 # 2) * u) in *. clearbody p h.
  split; lra.
Qed.

(** The relative error of one rounding, within the margin [eps]. *)
Lemma fl_rel (q : Q) :
  0 < q -> q - (q + 1) * eps <= fl q /\ fl q <= q + (q + 1) * eps.
Proof.
  intros Hq. pose proof (fl_error q) as [Hlo Hhi].
  pose proof (ulp_tight q Hq) as Hu.
  assert (H52 : 2 ^ (-52) <= eps) by (vm_compute; discriminate).
  assert (H1074 : 2 ^ (-1074) <= eps) by (vm_compute; discriminate).
  assert (Hq52 : q * 2 ^ (-52) <= q * eps) by (apply Qmult_le_l; lra).
  set (u := 2 ^ ulp_exp q) in *. set (a := q * 2 ^ (-52)) in *.
  set (b := 2 ^ (-1074)) in *. clearbody u a b.
  assert (E : (q + 1) * eps == q * eps + eps) by ring. rewrite E.
  set (c := q * eps) in *. clearbody c. unfold eps in *. split; lra.
Qed.

Lemma rhe_num0 (q : Q) : Qnum q = 0%Z -> rhe q = 0%Z.
Proof.
  intros H. unfold rhe. rewrite H. rewrite Z.div_0_l, Zmod_0_l by lia.
  reflexivity.
Qed.

Lemma fl_zero (q : Q) : q == 0 -> fl q == 0.
Proof.
  intros H. rewrite fl_unfold.
  assert (Hn : Qnum q = 0%Z).
  { unfold Qeq in H. cbn in H. lia. }
  rewrite rhe_num0.
  - ring.
  - unfold Qdiv, Qmult. cbn [Qnum]. rewrite Hn. reflexivity.
Qed.

Lemma fl_nonneg (q : Q) : 0 <= q -> 0 <= fl q.
Proof.
  intros Hq. rewrite fl_unfold. pose proof (pow2_pos (ulp_exp q)) as Hp.
  apply Qmult_le_0_compat; [| lra].
  change 0 with (inject_Z 0). rewrite <- Zle_Qle. apply rhe_ge_int.
  change (inject_Z 0) with 0. apply Qle_shift_div_l; [exact Hp | lra].
Qed.

Lemma ulp_exp_pos (q : Q) :
  0 < q -> ulp_exp q = Z.max (Qlog2 q - 52) (-1074).
Proof. intros Hq. unfold ulp_exp. by rewrite (Qabs_pos_eq q Hq). Qed.

Lemma pow2_inject (k : Z) : (0 <= k)%Z -> inject_Z (2 ^ k) == 2 ^ k.
Proof. intros Hk. by rewrite Zpower_Qpower. Qed.

(** Rounding to binary64 is monotone. *)
Lemma fl_mono (q1 q2 : Q) : 0 <= q1 -> q1 <= q2 -> fl q1 <= fl q2.
Proof.
  intros H1 H12.
  destruct (Qlt_le_dec 0 q1) as [Hpos | Hzero].
  2: { rewrite (fl_zero q1) by lra. apply fl_nonneg. lra. }
  assert (Hpos2 : 0 < q2) by lra.
  pose proof (Qlog2_mono q1 q2 Hpos H12) as HL.
  pose proof (ulp_exp_pos q1 Hpos) as He1.
  pose proof (ulp_exp_pos q2 Hpos2) as He2.
  rewrite (fl_unfold q1), (fl_unfold q2).
  pose proof (pow2_pos (ulp_exp q1)) as Hu1.
  pose proof (pow2_pos (ulp_exp q2)) as Hu2.
  destruct (Z.eq_dec (ulp_exp q1) (ulp_exp q2)) as [Heq | Hne].
  - rewrite Heq. apply Qmult_le_compat_r; [| lra].
    rewrite <- Zle_Qle. apply rhe_mono.
    apply Qmult_le_compat_r; [exact H12 |].
    apply Qlt_le_weak, Qinv_lt_0_compat, Hu2.
  - assert (Hlt : (ulp_exp q1 < ulp_exp q2)%Z) by lia.
    assert (He2' : ulp_exp q2 = (Qlog2 q2 - 52)%Z) by lia.
    assert (HL' : (Qlog2 q1 + 1 <= Qlog2 q2)%Z) by lia.
    set (e1 := ulp_exp q1) in *. set (e2 := ulp_exp q2) in *.
    set (L2 := Qlog2 q2) in *.
    apply Qle_trans with (2 ^ L2).
    + (* the smaller number rounds to at most the start of the binade *)
      assert (Hq1 : q1 <= 2 ^ L2).
      { pose proof (Qlog2_lt q1 Hpos) as Hup.
        assert (2 ^ (Qlog2 q1 + 1) <= 2 ^ L2)
          by (apply Qpower_le_compat_l; [lia | discriminate]).
        lra. }
      assert (HN : q1 / 2 ^ e1 <= inject_Z (2 ^ (L2 - e1))).
      { rewrite pow2_inject by lia. rewrite Qpower_minus by discriminate.
        apply Qmult_le_compat_r; [exact Hq1 |].
        apply Qlt_le_weak, Qinv_lt_0_compat, Hu1. }
      apply rhe_le_int in HN. rewrite Zle_Qle in HN.
      rewrite pow2_inject in HN by lia.
      assert (HE : 2 ^ L2 == 2 ^ (L2 - e1) * 2 ^ e1).
      { rewrite <- Qpower_plus by discriminate. by replace (L2 - e1 + e1)%Z with L2 by lia. }
      rewrite HE. apply Qmult_le_compat_r; [exact HN | lra].
    + (* the larger number rounds to at least that start *)
      assert (Hq2 : 2 ^ L2 <= q2) by (apply Qlog2_le; exact Hpos2).
      assert (HN : inject_Z (2 ^ 52) <= q2 / 2 ^ e2).
      { rewrite pow2_inject by lia.
        replace 52%Z with (L2 - e2)%Z by lia.
        rewrite Qpower_minus by discriminate.
        apply Qmult_le_compat_r; [exact Hq2 |].
        apply Qlt_le_weak, Qinv_lt_0_compat, Hu2. }
      apply rhe_ge_int in HN. rewrite Zle_Qle in HN.
      rewrite pow2_inject in HN by lia.
      assert (HE : 2 ^ L2 == 2 ^ 52 * 2 ^ e2).
      { rewrite <- Qpower_plus by discriminate. by replace (52 + e2)%Z with L2 by lia. }
      rewrite HE. apply Qmult_le_compat_r; [exact HN | lra].
Qed.

Lemma fl_proper (q1 q2 : Q) : 0 <= q1 -> q1 == q2 -> fl q1 == fl q2.
Proof.
  intros H0 He. apply Qle_antisym; apply fl_mono; lra.
Qed.

Lemma mul_mono (x1 x2 y1 y2 : Q) :
  0 <= x1 -> x1 <= x2 -> 0 <= y1 -> y1 <= y2 -> mul x1 y1 <= mul x2 y2.
Proof.
  intros Hx1 Hx Hy1 Hy. unfold mul. apply fl_mono.
  - by apply Qmult_le_0_compat.
  - apply Qmult_le_compat_nonneg; split; assumption.
Qed.

Lemma mul_nonneg (x y : Q) : 0 <= x -> 0 <= y -> 0 <= mul x y.
Proof. intros Hx Hy. apply fl_nonneg. by apply Qmult_le_0_compat. Qed.

Lemma max_mono (a v1 v2 : Q) : v1 <= v2 -> Float.max a v1 <= Float.max a v2.
Proof.
  intros Hv. unfold Float.max.
  destruct (Qlt_le_dec a v1), (Qlt_le_dec a v2); lra.
Qed.

Lemma round_mono (x1 x2 : Q) : x1 <= x2 -> round x1 <= round x2.
Proof. intros Hx. unfold round. rewrite <- Zle_Qle. by apply rhe_mono. Qed.

(** Powers of a base between 0 and 1. *)
Lemma Qpower_unit (x : Q) (k : Z) :
  0 <= x -> x <= 1 -> (0 <= k)%Z -> 0 <= x ^ k /\ x ^ k <= 1.
Proof.
  intros H0 H1 Hk. split; [by apply Qpower_0_le |].
  revert k Hk. apply natlike_ind; [cbn; lra |].
  intros k Hk IH. rewrite <- Z.add_1_r.
  rewrite Qpower_plus' by lia. rewrite Qpower_1_r.
  pose proof (Qpower_0_le x k H0) as Hp.
  assert (x ^ k * x <= 1 * 1)
    by (apply Qmult_le_compat_nonneg; split; assumption).
  set (p := x ^ k * x) in *. clearbody p. lra.
Qed.

Lemma Qpower_antitone (x : Q) (n m : Z) :
  0 <= x -> x <= 1 -> (0 <= n <= m)%Z -> x ^ m <= x ^ n.
Proof.
  intros H0 H1 [Hn Hm].
  destruct (Z.eq_dec m 0%Z) as [-> | Hm0].
  - assert (n = 0%Z) as -> by lia. lra.
  - replace m with (n + (m - n))%Z by lia.
    rewrite Qpower_plus' by lia.
    destruct (Qpower_unit x (m - n) H0 H1 ltac:(lia)) as [Ha Hb].
    pose proof (Qpower_0_le x n H0) as Hp.
    assert (x ^ n * x ^ (m - n) <= x ^ n * 1)
      by (apply Qmult_le_compat_nonneg; split; lra).
    set (p := x ^ n * x ^ (m - n)) in *. set (r := x ^ n) in *.
    clearbody p r. lra.
Qed.

(** The correctly rounded power meets both requirements. *)
Lemma pow_rounded_bounded : pow_bounded pow_rounded.
Proof.
  intros x n [H0 H1] Hn. unfold pow, pow_rounded.
  destruct (Qpower_unit x n H0 H1 Hn) as [Ha Hb]. split.
  - by apply fl_nonneg.
  - apply Qle_trans with (fl 1); [by apply fl_mono |].
    vm_compute. discriminate.
Qed.

Lemma pow_rounded_antitone : pow_antitone pow_rounded.
Proof.
  intros x n m [H0 H1] Hnm. unfold pow, pow_rounded.
  apply fl_mono.
  - apply Qpower_0_le, H0.
  - by apply Qpower_antitone.
Qed.

End FloatOrder.

(* ===================================================================== *)
(** * Bounds and monotonicity of the valuation *)
(* ===================================================================== *)

Section ValuationOrder.
Context {libm : Float.Libm}.
Import FloatOrder.
Local Open Scope Q_scope.

Lemma base_nonneg (c : Category) (s : string) :
  0 <= Float.of_int (base_map c !!! normalize_subtype c s).
Proof.
  pose proof (base_cases c s) as Hb. unfold Float.of_int.
  change 0 with (inject_Z 0). rewrite <- Zle_Qle.
  destruct c; rewrite !elem_of_cons, elem_of_nil in Hb; lia.
Qed.

Lemma condition_factor_mono (c1 c2 : option Condition) :
  (condition_rank c1 <= condition_rank c2)%Z ->
  0 <= condition_factor c1 /\ condition_factor c1 <= condition_factor c2.
Proof.
  destruct c1 as [[] |], c2 as [[] |]; cbn; intros H; try lia;
    vm_compute; split; discriminate.
Qed.

Lemma rate_unit (c : Category) :
  let x := match c with
           | vehicle => Float.lit (9 # 10)
           | electronics => Float.lit (75 # 100)
           end in
  0 <= x <= 1.
Proof. destruct c; vm_compute; split; discriminate. Qed.

Lemma first_factor_nonneg (c : Category) :
  0 <= match c with
       | vehicle => Float.lit (85 # 100)
       | electronics => Float.lit (7 # 10)
       end.
Proof. destruct c; vm_compute; discriminate. Qed.

(** The value of a new asset of the category, before the condition. *)
Lemma depreciated_bounds (c : Category) (base age : Z) :
  pow_bounded libm -> (0 <= base)%Z ->
  0 <= depreciated c base age /\
  depreciated c base age
    <= Float.mul (Float.mul (Float.of_int base)
                    match c with
                    | vehicle => Float.lit (85 # 100)
                    | electronics => Float.lit (7 # 10)
                    end) 1.
Proof.
  intros Hpow Hbase.
  assert (Hb : 0 <= Float.of_int base).
  { unfold Float.of_int. change 0 with (inject_Z 0). by rewrite <- Zle_Qle. }
  pose proof (first_factor_nonneg c) as Hf. pose proof (rate_unit c) as Hr.
  destruct c; unfold depreciated; cbn zeta in Hr.
  - destruct (Hpow _ (Z.max 0 (age - 1)) Hr ltac:(lia)) as [Hp0 Hp1]. split.
    + apply mul_nonneg; [by apply mul_nonneg | exact Hp0].
    + apply mul_mono; try lra. by apply mul_nonneg.
  - destruct (Hpow _ (Z.max 0 age) Hr ltac:(lia)) as [Hp0 Hp1]. split.
    + apply mul_nonneg; [by apply mul_nonneg | exact Hp0].
    + apply mul_mono; try lra. by apply mul_nonneg.
Qed.

Lemma depreciated_antitone (c : Category) (base age1 age2 : Z) :
  pow_bounded libm -> pow_antitone libm -> (0 <= base)%Z ->
  (age1 <= age2)%Z ->
  depreciated c base age2 <= depreciated c base age1.
Proof.
  intros Hpow Hanti Hbase Hage.
  assert (Hb : 0 <= Float.of_int base).
  { unfold Float.of_int. change 0 with (inject_Z 0). by rewrite <- Zle_Qle. }
  pose proof (first_factor_nonneg c) as Hf. pose proof (rate_unit c) as Hr.
  destruct c; unfold depreciated; cbn zeta in Hr.
  - apply mul_mono.
    + by apply mul_nonneg.
    + apply Qle_refl.
    + apply (Hpow _ _ Hr). lia.
    + apply (Hanti _ _ _ Hr). lia.
  - apply mul_mono.
    + by apply mul_nonneg.
    + apply Qle_refl.
    + apply (Hpow _ _ Hr). lia.
    + apply (Hanti _ _ _ Hr). lia.
Qed.

(** The two returned amounts grow with the floored value. *)
Lemma amounts_mono (x1 x2 l : Q) :
  0 <= x1 -> x1 <= x2 -> 0 <= l ->
  Float.round x1 <= Float.round x2 /\
  Float.round (Float.mul x1 l) <= Float.round (Float.mul x2 l).
Proof.
  intros H0 Hx Hl. split; apply round_mono; [exact Hx |].
  apply mul_mono; try assumption. apply Qle_refl.
Qed.

Lemma estimated_of_unfold (now_year : Z) (a : LoanAsset) :
  estimated_of now_year a =
    Float.max 5000
      (Float.mul
         (depreciated (category a)
            (base_map (category a)
               !!! normalize_subtype (category a) (subtype a))
            (asset_age now_year a))
         (condition_factor (condition a))).
Proof. reflexivity. Qed.

Lemma ltv_nonneg (c : Category) : 0 <= ltv_policy c.
Proof. destruct (ltv_policy_bounds c). lra. Qed.

Lemma base_Z_nonneg (c : Category) (s : string) :
  (0 <= base_map c !!! normalize_subtype c s)%Z.
Proof.
  pose proof (base_cases c s) as Hb.
  destruct c; rewrite !elem_of_cons, elem_of_nil in Hb; lia.
Qed.

(** A better condition never lowers the estimate nor the suggested loan. *)
Theorem estimate_condition_mono (now_year : Z) (a : LoanAsset)
    (c1 c2 : option Condition) :
  pow_bounded libm ->
  (condition_rank c1 <= condition_rank c2)%Z ->
  estimated_value (estimate_value now_year (with_condition a c1))
    <= estimated_value (estimate_value now_year (with_condition a c2)) /\
  suggested_loan (estimate_value now_year (with_condition a c1))
    <= suggested_loan (estimate_value now_year (with_condition a c2)).
Proof.
  intros Hpow Hrank. unfold estimate_value.
  cbn [estimated_value suggested_loan].
  change (category (with_condition a c1)) with (category a).
  change (category (with_condition a c2)) with (category a).
  apply amounts_mono; [| | apply ltv_nonneg].
  - pose proof (estimated_of_floor now_year (with_condition a c1)). lra.
  - rewrite !estimated_of_unfold.
    change (category (with_condition a c1)) with (category a).
    change (category (with_condition a c2)) with (category a).
    change (subtype (with_condition a c1)) with (subtype a).
    change (subtype (with_condition a c2)) with (subtype a).
    change (condition (with_condition a c1)) with c1.
    change (condition (with_condition a c2)) with c2.
    change (asset_age now_year (with_condition a c1))
      with (asset_age now_year a).
    change (asset_age now_year (with_condition a c2))
      with (asset_age now_year a).
    destruct (condition_factor_mono c1 c2 Hrank) as [Hc0 Hc].
    destruct (depreciated_bounds (category a)
                (base_map (category a)
                   !!! normalize_subtype (category a) (subtype a))
                (asset_age now_year a) Hpow (base_Z_nonneg _ _)) as [Hd0 _].
    apply max_mono, mul_mono; try assumption. apply Qle_refl.
Qed.

(** An older asset is never valued higher: with the same category, subtype
    key and condition, a larger age gives an estimate and a suggested loan
    that are not larger. *)
Theorem estimate_age_antitone (now1 now2 : Z) (a1 a2 : LoanAsset) :
  pow_bounded libm -> pow_antitone libm ->
  category a1 = category a2 ->
  normalize_subtype (category a1) (subtype a1)
    = normalize_subtype (category a2) (subtype a2) ->
  condition a1 = condition a2 ->
  (asset_age now1 a1 <= asset_age now2 a2)%Z ->
  estimated_value (estimate_value now2 a2)
    <= estimated_value (estimate_value now1 a1) /\
  suggested_loan (estimate_value now2 a2)
    <= suggested_loan (estimate_value now1 a1).
Proof.
  intros Hpow Hanti Hc Hs Hd Hage. unfold estimate_value.
  cbn [estimated_value suggested_loan]. rewrite Hc.
  apply amounts_mono; [| | apply ltv_nonneg].
  - pose proof (estimated_of_floor now2 a2). lra.
  - rewrite !estimated_of_unfold. rewrite Hs, Hd, Hc.
    destruct (condition_factor_mono (condition a2) (condition a2)
                ltac:(lia)) as [Hc0 _].
    destruct (depreciated_bounds (category a2)
                (base_map (category a2)
                   !!! normalize_subtype (category a2) (subtype a2))
                (asset_age now2 a2) Hpow (base_Z_nonneg _ _)) as [Hd0 _].
    apply max_mono, mul_mono; try assumption; [| apply Qle_refl].
    apply depreciated_antitone; try assumption. apply base_Z_nonneg.
Qed.


(** The floored value is at most the value of a new asset in the same
    condition. *)
Lemma estimated_of_upper (now_year : Z) (a : LoanAsset) :
  pow_bounded libm ->
  estimated_of now_year a <= 535500 /\
  (category a = electronics -> estimated_of now_year a <= 44100).
Proof.
  intros Hpow. rewrite estimated_of_unfold.
  pose proof (base_cases (category a) (subtype a)) as Hb.
  pose proof (base_Z_nonneg (category a) (subtype a)) as Hb0.
  set (base := base_map (category a)
                 !!! normalize_subtype (category a) (subtype a)) in *.
  destruct (depreciated_bounds (category a) base (asset_age now_year a)
              Hpow Hb0) as [Hd0 Hd].
  destruct (condition_factor_mono (condition a) (condition a) ltac:(lia))
    as [Hc0 _].
  set (v := depreciated (category a) base (asset_age now_year a)) in *.
  set (cf := condition_factor (condition a)) in *.
  assert (Hmax : ∀ u, Float.mul v cf <= u -> 5000 <= u ->
                      Float.max 5000 (Float.mul v cf) <= u).
  { intros u Hu H5. unfold Float.max.
    destruct (Qlt_le_dec 5000 (Float.mul v cf)); lra. }
  assert (Hv : ∀ w, v <= w -> Float.mul v cf <= Float.mul w cf).
  { intros w Hw. apply mul_mono; try assumption. apply Qle_refl. }
  clearbody v. subst cf.
  assert (Hclose : ∀ w u, v <= w ->
            Float.max 5000 (Float.mul w (condition_factor (condition a))) <= u ->
            Float.max 5000 (Float.mul v (condition_factor (condition a))) <= u).
  { intros w u Hw Hwu. eapply Qle_trans; [| exact Hwu].
    apply max_mono, Hv, Hw. }
  destruct (category a); rewrite !elem_of_cons, elem_of_nil in Hb;
    destruct Hb as [Hb | [Hb | [Hb | []]]]; rewrite Hb in Hd;
    (split; [| intros Hc; try discriminate Hc]);
    apply (Hclose _ _ Hd); clear;
    destruct (condition a) as [[] |]; vm_compute; discriminate.
Qed.

(** The estimate never exceeds 535500 (a new four-wheeler in excellent
    condition), nor 44100 for electronics; the suggested loan never exceeds
    321300. *)
Theorem estimate_upper (now_year : Z) (a : LoanAsset) :
  pow_bounded libm ->
  estimated_value (estimate_value now_year a) <= 535500 /\
  suggested_loan (estimate_value now_year a) <= 321300 /\
  (category a = electronics ->
   estimated_value (estimate_value now_year a) <= 44100).
Proof.
  intros Hpow. unfold estimate_value. cbn [estimated_value suggested_loan].
  destruct (estimated_of_upper now_year a Hpow) as [Hu He].
  pose proof (estimated_of_floor now_year a) as Hx.
  split; [| split].
  - apply Qle_trans with (Float.round 535500); [by apply round_mono |].
    vm_compute. discriminate.
  - apply Qle_trans
      with (Float.round (Float.mul 535500 (ltv_policy (category a)))).
    + apply amounts_mono; [lra | exact Hu | apply ltv_nonneg].
    + destruct (category a); vm_compute; discriminate.
  - intros Hc. specialize (He Hc).
    apply Qle_trans with (Float.round 44100); [by apply round_mono |].
    vm_compute. discriminate.
Qed.

(** The three returned numbers are consistent to within one unit: the
    suggested loan differs from [ltv * estimated_value] by less than 1. *)
Theorem suggested_loan_near_ltv (now_year : Z) (a : LoanAsset) :
  pow_bounded libm ->
  Qabs (suggested_loan (estimate_value now_year a)
        - ltv (estimate_value now_year a)
          * estimated_value (estimate_value now_year a)) < 1.
Proof.
  intros Hpow. unfold estimate_value.
  cbn [estimated_value suggested_loan ltv].
  destruct (estimated_of_upper now_year a Hpow) as [Hu _].
  pose proof (estimated_of_floor now_year a) as Hx.
  destruct (ltv_policy_bounds (category a)) as [Hl0 Hl].
  set (x := estimated_of now_year a) in *.
  set (l := ltv_policy (category a)) in *.
  unfold Float.round, Float.mul.
  assert (Hy0 : 0 < x * l) by (apply Qmult_lt_0_compat; lra).
  assert (Hy : x * l <= 535500 * (61 # 100))
    by (apply Qmult_le_compat_nonneg; split; lra).
  destruct (fl_rel (x * l) Hy0) as [Hf1 Hf2].
  destruct (FloatFacts.rhe_bounds (Float.fl (x * l))) as [Hr1 Hr2].
  destruct (FloatFacts.rhe_bounds x) as [Hs1 Hs2].
  set (r2 := inject_Z (Float.rhe x)) in *.
  assert (Hd1 : l * (r2 - x) <= l * (1 # 2)) by (apply Qmult_le_l; lra).
  assert (Hd2 : l * (- (1 # 2)) <= l * (r2 - x)) by (apply Qmult_le_l; lra).
  assert (E : l * r2 == x * l + l * (r2 - x)) by ring.
  assert (Ee : (x * l + 1) * eps <= 1 # 1000).
  { assert ((x * l + 1) * eps <= (535500 * (61 # 100) + 1) * eps).
    { apply Qmult_le_compat_r; [lra | vm_compute; discriminate]. }
    assert ((535500 * (61 # 100) + 1) * eps <= 1 # 1000)
      by (vm_compute; discriminate).
    lra. }
  set (r1 := inject_Z (Float.rhe (Float.fl (x * l)))) in *.
  set (f := Float.fl (x * l)) in *. set (e := (x * l + 1) * eps) in *.
  apply Qabs_Qlt_condition. rewrite E.
  set (y := x * l) in *. set (d := l * (r2 - x)) in *.
  set (h1 := l * (1 # 2)) in *. set (h2 := l * - (1 # 2)) in *.
  assert (Eh1 : h1 == l * (1 # 2)) by reflexivity.
  assert (Eh2 : h2 == - (l * (1 # 2))) by (unfold h2; ring).
  clearbody r1 r2 f e y d h1 h2. split; lra.
Qed.

End ValuationOrder.

(* ===================================================================== *)
(** * Further properties of the lifecycle *)
(* ===================================================================== *)

Section LifecycleMore.
Context {libm : Float.Libm}.

Implicit Types (db : Store) (doc update : gmap string Value).
Implicit Types (id req_id : string) (p : StatusUpdateInput).

(** On an existing request, [update_status] stores the patch of the
    payload over the document, whether it raises or not. *)
Lemma update_status_store db req_id p doc :
  db !! req_id = Some doc →
  (update_status db req_id p).1 = <[req_id := patch_of p ∪ doc]> db ∧
  is_Ok (update_status db req_id p).2 = goes_through p.
Proof.
  intros Hdoc. unfold patch_of, goes_through.
  destruct (build_update p) as [update | c m] eqn:Hb.
  - destruct (decide (update = ∅)) as [-> | Hne].
    + unfold update_status.
      rewrite not_doc_find_one, bool_decide_eq_false_2 by congruence.
      rewrite Hb, !bool_decide_eq_true_2 by done. cbn.
      by rewrite (left_id_L ∅ (∪)), insert_id.
    + rewrite (update_status_applies _ _ _ _ _ Hdoc Hb Hne). cbn.
      by rewrite bool_decide_eq_false_2.
  - rewrite (update_status_raises _ _ _ _ _ _ Hdoc Hb). cbn.
    by rewrite (left_id_L ∅ (∪)), insert_id.
Qed.


(** Sending the same payload a second time changes nothing more and gets
    the same answer. *)
Theorem update_status_idempotent db req_id p :
  update_status (update_status db req_id p).1 req_id p
    = update_status db req_id p.
Proof.
  destruct (db !! req_id) as [doc |] eqn:Hdoc.
  2: { rewrite (update_status_missing _ _ _ Hdoc). cbn [fst].
       by rewrite (update_status_missing _ _ _ Hdoc). }
  destruct (build_update p) as [update | c m] eqn:Hb.
  - destruct (decide (update = ∅)) as [-> | Hne].
    + assert (Hsame : update_status db req_id p
                      = (db, HTTPException 400 "No update provided")).
      { unfold update_status.
        rewrite not_doc_find_one, bool_decide_eq_false_2 by congruence.
        by rewrite Hb, bool_decide_eq_true_2. }
      rewrite Hsame. cbn [fst]. by rewrite Hsame.
    + rewrite (update_status_applies _ _ _ _ _ Hdoc Hb Hne). cbn [fst].
      rewrite (update_status_applies _ _ _ (update ∪ doc) _
                 (lookup_insert_eq _ _ _) Hb Hne).
      rewrite insert_insert_eq.
      by rewrite (assoc_L (∪)), (idemp_L (∪) update).
  - rewrite (update_status_raises _ _ _ _ _ _ Hdoc Hb). cbn [fst].
    by rewrite (update_status_raises _ _ _ _ _ _ Hdoc Hb).
Qed.

(** ** Sequences of updates *)

Lemma step_store id h op doc :
  h_db h !! op.1 = Some doc →
  h_db (step id h op) = <[op.1 := patch_of op.2 ∪ doc]> (h_db h).
Proof.
  intros Hdoc. unfold step.
  destruct (update_status_store (h_db h) op.1 op.2 doc Hdoc) as [Hs _].
  destruct (update_status (h_db h) op.1 op.2) as [db' r]. cbn in *.
  exact Hs.
Qed.

Lemma step_lookup id h op id' doc :
  h_db h !! id' = Some doc →
  h_db (step id h op) !! id'
    = Some ((if bool_decide (op.1 = id') then patch_of op.2 else ∅) ∪ doc).
Proof.
  intros Hdoc. case_bool_decide as Heq.
  - rewrite (step_store id h op doc) by (by rewrite Heq).
    rewrite Heq. apply lookup_insert_eq.
  - rewrite (left_id_L ∅ (∪)). rewrite <- Hdoc. unfold step.
    pose proof (update_status_other (h_db h) op.1 op.2 id' ltac:(congruence))
      as Ho.
    destruct (update_status (h_db h) op.1 op.2) as [db' r]. exact Ho.
Qed.

Lemma merge_acc id (ops : list (string * StatusUpdateInput))
    (acc : gmap string Value) :
  foldl (λ acc op, if bool_decide (op.1 = id) then patch_of op.2 ∪ acc
                   else acc) acc ops
  = merged id ops ∪ acc.
Proof.
  unfold merged. revert acc.
  induction ops as [| o os IH]; intros acc; cbn [foldl].
  - by rewrite (left_id_L ∅ (∪)).
  - rewrite (IH (if bool_decide (o.1 = id) then patch_of o.2 ∪ acc else acc)).
    rewrite (IH (if bool_decide (o.1 = id) then patch_of o.2 ∪ ∅ else ∅)).
    destruct (bool_decide (o.1 = id)).
    + by rewrite (right_id_L ∅ (∪)), (assoc_L (∪)).
    + by rewrite (right_id_L ∅ (∪)).
Qed.

Lemma merged_cons id op (ops : list (string * StatusUpdateInput)) :
  merged id (op :: ops)
  = merged id ops ∪ (if bool_decide (op.1 = id) then patch_of op.2 else ∅).
Proof.
  unfold merged at 1. cbn [foldl]. rewrite merge_acc.
  destruct (bool_decide (op.1 = id)); by rewrite ?(right_id_L ∅ (∪)).
Qed.

Lemma foldl_step_lookup id id' ops h doc :
  h_db h !! id' = Some doc →
  h_db (foldl (step id) h ops) !! id' = Some (merged id' ops ∪ doc).
Proof.
  revert h doc. induction ops as [| op ops IH]; intros h doc Hdoc.
  - cbn. by rewrite (left_id_L ∅ (∪)).
  - cbn [foldl]. rewrite (IH _ _ (step_lookup id h op id' doc Hdoc)).
    by rewrite merged_cons, (assoc_L (∪)).
Qed.

(** A sequence of status updates acts on each request as a single [$set]
    of the merged patches of the updates addressed to it, the later ones
    winning. *)
Theorem run_merged id id' db ops doc :
  db !! id' = Some doc →
  h_db (run id db ops) !! id' = Some (merged id' ops ∪ doc).
Proof. intros Hdoc. unfold run. by apply foldl_step_lookup. Qed.

(** A payload either writes nothing or writes a status other than
    [Pending]. *)
Lemma patch_status p :
  (goes_through p = false ∧ patch_of p = ∅) ∨
  (goes_through p = true ∧
   ∃ s, s ≠ Pending ∧ patch_of p !! "status" = Some (VStr (Status_str s))).
Proof.
  unfold goes_through, patch_of.
  destruct (decide (action p = "Approve")) as [Ha | Ha].
  { rewrite (build_update_Approve p Ha). right.
    split; [by rewrite bool_decide_eq_false_2 by apply insert_non_empty |].
    by exists Approved. }
  destruct (decide (action p = "Reject")) as [Hr | Hr].
  { rewrite (build_update_Reject p Hr). right.
    split; [by rewrite bool_decide_eq_false_2 by apply insert_non_empty |].
    by exists Rejected. }
  destruct (decide (action p = "Modify")) as [Hm | Hm].
  - rewrite (build_update_Modify p Hm).
    destruct (data p) as [[[x |] note] |]; [| by left | by left].
    right. cbn. destruct (truthy_str note);
      (split; [by rewrite bool_decide_eq_false_2 by apply insert_non_empty |]);
      exists Modified; split; try done; by simplify_map_eq.
  - rewrite (build_update_other p Ha Hr Hm). left.
    by rewrite bool_decide_eq_true_2.
Qed.

Lemma merged_status id (ops : list (string * StatusUpdateInput)) :
  (Forall (λ op, op.1 = id → goes_through op.2 = false) ops ∧
   merged id ops = ∅) ∨
  (Exists (λ op, op.1 = id ∧ goes_through op.2 = true) ops ∧
   ∃ s, s ≠ Pending ∧ merged id ops !! "status" = Some (VStr (Status_str s))).
Proof.
  induction ops as [| op ops IH].
  - left. split; [constructor | reflexivity].
  - rewrite merged_cons. destruct IH as [[Hall He] | [Hex (s & Hs & Hl)]].
    + rewrite He, (left_id_L ∅ (∪)). case_bool_decide as Hid.
      * destruct (patch_status op.2) as [[Hg Hp] | [Hg Hp]].
        -- left. split; [by constructor |]. exact Hp.
        -- right. split; [by constructor |]. exact Hp.
      * left. split; [| reflexivity]. constructor; [| exact Hall].
        intros Heq. by destruct Hid.
    + right. split; [by apply Exists_cons_tl |].
      exists s. split; [exact Hs |]. by apply lookup_union_Some_l.
Qed.

(** The stored status of a created request is always one of the four
    literals, and it is [Pending] exactly as long as no update addressed to
    the request has gone through. *)
Theorem status_invariant now_year new_id db (c : Creation)
    (ops : list (string * StatusUpdateInput)) :
  ∃ s : Status,
    status_of (h_db (run new_id (create now_year new_id db c) ops)) new_id
      = Some (VStr (Status_str s)) ∧
    (s = Pending ↔
     Forall (λ op, op.1 = new_id → goes_through op.2 = false) ops).
Proof.
  assert (Hcreated : ∃ r, create now_year new_id db c !! new_id
                            = Some (dump_LoanRequest r) ∧ status r = Pending).
  { destruct c as [payload | payload]; cbn [create].
    - destruct (create_loan_request_stored now_year new_id db payload)
        as (r & Hr & Hs & _). eauto.
    - destruct (create_byob_stored now_year new_id db payload)
        as (r & Hr & Hs & _). eauto. }
  destruct Hcreated as (r & Hr & Hs).
  unfold status_of, field_of.
  unfold run.
  rewrite (foldl_step_lookup new_id new_id ops
             {| h_db := create now_year new_id db c;
                h_modified := false; h_noted := false |} _ Hr).
  cbn.
  destruct (dump_LoanRequest_fields r) as (Hst & _). rewrite Hs in Hst.
  destruct (merged_status new_id ops) as [[Hall He] | [Hex (s & Hne & Hl)]].
  - exists Pending. rewrite He, (left_id_L ∅ (∪)). split; [exact Hst |].
    split; [by intros _ | done].
  - exists s. split; [by apply lookup_union_Some_l |].
    split; [done |]. intros Hall. exfalso.
    apply Exists_exists in Hex as (op & Hin & Hid & Hgo).
    rewrite Forall_forall in Hall. specialize (Hall op Hin Hid). congruence.
Qed.

(** ** Reading a request *)

Lemma iso_dates_idemp (v : Value) : iso_dates (iso_dates v) = iso_dates v.
Proof. by destruct v. Qed.


(** What [serialize_doc] makes of a stored request. *)
Lemma serialize_found db id doc :
  db !! id = Some doc →
  serialize_doc (find_one db id)
    = Some (iso_dates <$> <["id" := VStr id]> (delete "_id" doc)).
Proof.
  intros Hdoc. unfold find_one. rewrite Hdoc.
  change ((λ d, <["_id" := VOid id]> d) <$> Some doc)
    with (Some (<["_id" := VOid id]> doc)).
  unfold serialize_doc, not_doc.
  rewrite bool_decide_eq_false_2 by apply insert_non_empty.
  by rewrite lookup_insert_eq, delete_insert_eq.
Qed.



(** The body answered by a successful [update_status] is the one a
    [get_loan_request] on the updated collection answers. *)
Theorem get_after_update db req_id p body :
  (update_status db req_id p).2 = Ok body →
  get_loan_request (update_status db req_id p).1 req_id = Ok body.
Proof.
  intros Hok.
  destruct (db !! req_id) as [doc |] eqn:Hdoc.
  2: { by rewrite (update_status_missing _ _ _ Hdoc) in Hok. }
  destruct (build_update p) as [update | c m] eqn:Hb.
  2: { by rewrite (update_status_raises _ _ _ _ _ _ Hdoc Hb) in Hok. }
  destruct (decide (update = ∅)) as [-> | Hne].
  { unfold update_status in Hok.
    rewrite not_doc_find_one, bool_decide_eq_false_2 in Hok by congruence.
    by rewrite Hb, bool_decide_eq_true_2 in Hok. }
  rewrite (update_status_applies _ _ _ _ _ Hdoc Hb Hne) in *.
  cbn [fst snd] in *. injection Hok as <-.
  unfold get_loan_request.
  rewrite not_doc_find_one, bool_decide_eq_false_2
    by (by rewrite lookup_insert_eq).
  unfold find_one. by rewrite lookup_insert_eq.
Qed.

(** Serialising the body of a stored request a second time changes
    nothing. *)
Theorem serialize_doc_idempotent db req_id :
  serialize_doc (serialize_doc (find_one db req_id))
    = serialize_doc (find_one db req_id).
Proof.
  destruct (db !! req_id) as [doc |] eqn:Hdoc.
  - rewrite (serialize_found _ _ _ Hdoc).
    set (b := <["id" := VStr req_id]> (delete "_id" doc)).
    assert (Hne : iso_dates <$> b ≠ ∅).
    { unfold b. rewrite fmap_insert. apply insert_non_empty. }
    assert (Hid : (iso_dates <$> b) !! "_id" = None).
    { unfold b. by rewrite lookup_fmap, lookup_insert_ne, lookup_delete_eq. }
    unfold serialize_doc, not_doc.
    rewrite bool_decide_eq_false_2 by done. rewrite Hid. f_equal.
    rewrite <- map_fmap_compose. apply map_fmap_ext.
    intros k v _. apply iso_dates_idemp.
  - unfold find_one. by rewrite Hdoc.
Qed.

(** ** Creation, then reading *)





(** A [Modify] with an offer amount and a non-empty note stores exactly
    that amount and that note, whatever was stored before. *)
Theorem modify_stores_note db req_id doc (amount : Q) (note : string)
    (p : StatusUpdateInput) :
  db !! req_id = Some doc →
  action p = "Modify" →
  data p = Some {| mo_offer_amount := Some amount;
                   mo_lender_note := Some note |} →
  note ≠ "" →
  field_of (update_status db req_id p).1 req_id "lender_note"
    = Some (VStr note) ∧
  field_of (update_status db req_id p).1 req_id "offer_amount"
    = Some (VFloat amount) ∧
  status_of (update_status db req_id p).1 req_id = Some (VStr "Modified").
Proof.
  intros Hdoc Hp Hdata Hnote.
  pose proof (build_update_Modify p Hp) as Hb. rewrite Hdata in Hb.
  cbn in Hb. rewrite bool_decide_eq_false_2 in Hb by done.
  destruct (update_status_lookup _ _ _ _ _ Hdoc Hb
              ltac:(apply insert_non_empty)) as [_ Hl].
  unfold status_of, field_of. rewrite Hl. cbn.
  rewrite !lookup_patch. by simplify_map_eq.
Qed.

End LifecycleMore.

(* ===================================================================== *)
(** * The further theorems at sample inputs *)
(* ===================================================================== *)

Section MoreSamples.
Local Open Scope Q_scope.

Lemma future_year_clamped_witness :
  2030%Z ≠ 0%Z ∧ (2024 <= 2030)%Z ∧
  asset_age 2024 (with_year tablet (Some 2030%Z)) = 0%Z.
Proof.
  split; [discriminate |]. split; [lia |].
  apply (future_year_clamped 2024 2030 tablet); [discriminate | lia].
Defined.

Lemma vehicle_first_year_flat_witness :
  category car_2014 = vehicle ∧ 2024%Z ≠ 0%Z ∧ 2024%Z ≠ 1%Z ∧
  estimate_value 2024 (with_year car_2014 (Some (2024 - 1)%Z))
    = estimate_value 2024 (with_year car_2014 (Some 2024%Z)).
Proof.
  split; [reflexivity |]. split; [discriminate |]. split; [discriminate |].
  apply (vehicle_first_year_flat 2024 car_2014);
    [reflexivity | discriminate | discriminate].
Defined.

Lemma estimate_condition_mono_witness :
  pow_bounded Float.pow_rounded ∧
  (condition_rank (Some fair) <= condition_rank (Some good))%Z ∧
  estimated_value (estimate_value 2024 (with_condition car_2014 (Some fair)))
    <= estimated_value
         (estimate_value 2024 (with_condition car_2014 (Some good))).
Proof.
  split; [exact FloatOrder.pow_rounded_bounded |].
  split; [vm_compute; discriminate |].
  apply (estimate_condition_mono 2024 car_2014 (Some fair) (Some good)
           FloatOrder.pow_rounded_bounded).
  vm_compute; discriminate.
Defined.

Lemma estimate_age_antitone_witness :
  pow_bounded Float.pow_rounded ∧ pow_antitone Float.pow_rounded ∧
  (asset_age 2024 (car 2014 (Some good))
     <= asset_age 2024 (car 2010 (Some good)))%Z ∧
  estimated_value (estimate_value 2024 (car 2010 (Some good)))
    <= estimated_value (estimate_value 2024 (car 2014 (Some good))).
Proof.
  split; [exact FloatOrder.pow_rounded_bounded |].
  split; [exact FloatOrder.pow_rounded_antitone |].
  split; [vm_compute; discriminate |].
  apply (estimate_age_antitone 2024 2024
           (car 2014 (Some good)) (car 2010 (Some good))
           FloatOrder.pow_rounded_bounded FloatOrder.pow_rounded_antitone);
    [reflexivity | reflexivity | reflexivity | vm_compute; discriminate].
Defined.

Lemma estimate_upper_witness :
  pow_bounded Float.pow_rounded ∧
  estimated_value (estimate_value 2024 (car 2024 (Some excellent))) <= 535500.
Proof.
  split; [exact FloatOrder.pow_rounded_bounded |].
  apply (estimate_upper 2024 (car 2024 (Some excellent))
           FloatOrder.pow_rounded_bounded).
Defined.

Lemma suggested_loan_near_ltv_witness :
  pow_bounded Float.pow_rounded ∧
  Qabs (suggested_loan (estimate_value 2024 car_2014)
        - ltv (estimate_value 2024 car_2014)
          * estimated_value (estimate_value 2024 car_2014)) < 1.
Proof.
  split; [exact FloatOrder.pow_rounded_bounded |].
  apply (suggested_loan_near_ltv 2024 car_2014
           FloatOrder.pow_rounded_bounded).
Defined.

Lemma run_merged_witness :
  sample_db !! "r1" = Some sample_doc ∧
  h_db (run "r1" sample_db [("r1", reject); ("r1", approve)]) !! "r1"
    = Some (merged "r1" [("r1", reject); ("r1", approve)] ∪ sample_doc).
Proof.
  split; [exact sample_db_lookup |].
  apply (run_merged "r1" "r1" sample_db _ sample_doc sample_db_lookup).
Defined.

Lemma get_after_update_witness :
  let body :=
    serialize_doc
      (Some (<["_id" := VOid "r1"]>
               ({[ "status" := VStr "Approved" ]} ∪ sample_doc))) in
  (update_status sample_db "r1" approve).2 = Ok body ∧
  get_loan_request (update_status sample_db "r1" approve).1 "r1" = Ok body.
Proof.
  intros body.
  assert (Hok : (update_status sample_db "r1" approve).2 = Ok body).
  { unfold body.
    rewrite (update_status_applies sample_db "r1" approve sample_doc
               {[ "status" := VStr "Approved" ]} sample_db_lookup
               (build_update_Approve approve eq_refl)
               (status_patch_nonempty _)).
    reflexivity. }
  split; [exact Hok |].
  apply (get_after_update sample_db "r1" approve body Hok).
Defined.

Lemma modify_stores_note_witness :
  sample_db !! "r1" = Some sample_doc ∧
  action (modify 1000 (Some "call me")) = "Modify" ∧
  "call me" ≠ "" ∧
  field_of (update_status sample_db "r1" (modify 1000 (Some "call me"))).1
    "r1" "lender_note" = Some (VStr "call me").
Proof.
  split; [exact sample_db_lookup |]. split; [reflexivity |].
  split; [discriminate |].
  apply (modify_stores_note sample_db "r1" sample_doc 1000 "call me"
           (modify 1000 (Some "call me")) sample_db_lookup eq_refl eq_refl).
  discriminate.
Defined.

End MoreSamples.
